(** * tap-medusa-v2: the REST client's session and pagination protocol

    A shallow embedding of [tap_medusa_v2/client.py] (class [MedusaStream])
    and the properties of its credential manager and paginated fetcher.

    Python values are embedded as the JSON-shaped type [pyval]; the two
    configuration dictionaries the class reads ([self.config], the stream's
    own copy, and [self._tap._config], the tap's live dictionary) are finite
    maps from strings; methods that read the clock, talk to the network,
    mutate the tap's dictionary or write the configuration file live in a
    state-and-exception monad over [World].  What the class inherits from the
    SDK or takes from the Python runtime is collected in the class [Host]. *)

From Stdlib Require Import ZArith String Ascii List Lia Bool.
From stdpp Require Import base option gmap strings list fin_maps pretty.

Set Warnings "-register-all".

Local Open Scope string_scope.
Local Open Scope Z_scope.

(** ** Python values *)

(** The values a JSON document can hold.  A dictionary is given by its
    items, each key once.  Floating-point numbers are left out: none of the
    modelled code computes with one. *)
Inductive pyval : Type :=
| PNone
| PBool (b : bool)
| PInt (z : Z)
| PStr (s : string)
| PList (l : list pyval)
| PDict (d : list (string * pyval)).

(** Python's truth value of an object ([bool(v)], what [not v] and [if v]
    test). *)
Definition truthy (v : pyval) : bool :=
  match v with
  | PNone => false
  | PBool b => b
  | PInt z => negb (z =? 0)
  | PStr s => negb (String.eqb s "")
  | PList l => match l with [] => false | _ => true end
  | PDict d => match d with [] => false | _ => true end
  end.

(** [d.get(k)]: the value under [k], [None] when the key is missing. *)
Definition dict_get (d : gmap string pyval) (k : string) : pyval :=
  default PNone (d !! k).

(** ** Exceptions and the monad *)

Inductive exn : Type :=
| ValueError
| TypeError
| AttributeError
| KeyError (k : string)
| JSONDecodeError
| ParserError
| OverflowError
| Exception (msg : string).

Inductive outcome (A : Type) : Type :=
| Ok (a : A)
| Raise (e : exn).
Arguments Ok {A} a.
Arguments Raise {A} e.

(** A request as [requests.post] receives it.  The body is kept as the
    dictionary handed to [json.dumps], not as its text. *)
Record Request := mkRequest {
  req_url : string;
  req_data : gmap string pyval;
  req_headers : gmap string string;
}.

(** A response: [resp_json] is what [response.json()] returns, [None] when
    the body is not a JSON document (the call raises). *)
Record Response := mkResponse {
  status_code : Z;
  reason : string;
  resp_url : string;
  text : string;
  resp_json : option pyval;
}.

(** The mutable world around a stream.  [tap_config] is [self._tap._config]
    (and [self._tap.config], a read-only view of the same dictionary);
    [files] maps a path to the JSON documents the file holds, in order;
    [ticks] and [posts] record the clock readings taken and the requests
    sent so far, newest first. *)
Record World := mkWorld {
  tap_config : gmap string pyval;
  config_file : string;
  files : gmap string (list (gmap string pyval));
  ticks : list Z;
  posts : list Request;
}.

Definition M (A : Type) : Type := World -> outcome A * World.

Definition ret {A} (a : A) : M A := fun w => (Ok a, w).
Definition raise {A} (e : exn) : M A := fun w => (Raise e, w).
Definition bind {A B} (c : M A) (k : A -> M B) : M B :=
  fun w => match c w with
           | (Ok a, w') => k a w'
           | (Raise e, w') => (Raise e, w')
           end.
Definition lift {A} (r : outcome A) : M A := fun w => (r, w).

Notation "'let*' x ':=' c 'in' k" := (bind c (fun x => k))
  (at level 10, x name, c at level 100, k at level 200).
Notation "c ';;' k" := (bind c (fun _ => k))
  (at level 100, k at level 200, right associativity).

(** ** Time *)

Definition TOKEN_EXPIRY_BUFFER_SECONDS : Z := 120.
Definition TOKEN_VALIDITY_MINUTES : Z := 60.

Definition MICROS : Z := 1000000.

(** [round(x)] for [x = n / d] with [d > 0]: the nearest integer, a tie
    going to the even neighbour. *)
Definition round_div (n d : Z) : Z :=
  let q := n / d in
  let r := n mod d in
  if 2 * r <? d then q
  else if d <? 2 * r then q + 1
  else if Z.even q then q else q + 1.

(** [round(x)] for a timestamp [x] given in microseconds. *)
Definition round_timestamp (us : Z) : Z := round_div us MICROS.

(** A [datetime] value: [wall] counts the microseconds from
    1970-01-01T00:00:00 on the value's own wall clock (the calendar fields
    Python stores), [utcoffset] is the offset of its time zone from UTC in
    seconds, so the instant it denotes is [wall - utcoffset * MICROS]. *)
Record DateTime := mkDateTime {
  wall : Z;
  utcoffset : Z;
}.

(** [datetime] covers the years 1 to 9999: the admissible values of [wall]
    run from 0001-01-01T00:00:00.000000 to 9999-12-31T23:59:59.999999. *)
Definition MIN_WALL : Z := -719162 * 86400 * MICROS.
Definition MAX_WALL : Z := 2932897 * 86400 * MICROS - 1.

(** [d + datetime.timedelta(seconds=n)]: arithmetic on the wall clock, the
    zone kept; [OverflowError] outside the supported years. *)
Definition add_seconds (d : DateTime) (n : Z) : outcome DateTime :=
  let w := wall d + n * MICROS in
  if (MIN_WALL <=? w) && (w <=? MAX_WALL)
  then Ok (mkDateTime w (utcoffset d))
  else Raise OverflowError.

(** Year, month and day of the day that lies [z] days after 1970-01-01 in
    the proleptic Gregorian calendar. *)
Definition civil_from_days (z : Z) : Z * Z * Z :=
  let z := z + 719468 in
  let era := z / 146097 in
  let doe := z mod 146097 in
  let yoe := (doe - doe / 1460 + doe / 36524 - doe / 146096) / 365 in
  let doy := doe - (365 * yoe + yoe / 4 - yoe / 100) in
  let mp := (5 * doy + 2) / 153 in
  let d := doy - (153 * mp + 2) / 5 + 1 in
  let m := if mp <? 10 then mp + 3 else mp - 9 in
  let y := yoe + era * 400 + (if m <=? 2 then 1 else 0) in
  (y, m, d).

Definition digit (n : Z) : ascii :=
  ascii_of_nat (48 + Z.to_nat (n mod 10)).

(** A number written with two decimal digits. *)
Definition pad2 (n : Z) : string :=
  String (digit (n / 10)) (String (digit n) EmptyString).

(** [d.strftime("%Y-%m-%dT%H:%M:%SZ")]: the calendar fields of [d] as its
    own wall clock shows them, the microseconds dropped, then the letter Z.
    The year is written as CPython on Linux writes [%Y], in decimal with no
    padding (four digits from the year 1000 on); the other fields have two
    digits.  The zone of [d] plays no part. *)
Definition strftime (d : DateTime) : string :=
  let secs := wall d / MICROS in
  let '(y, m, dd) := civil_from_days (secs / 86400) in
  let sod := secs mod 86400 in
  pretty y +:+ "-" +:+ pad2 m +:+ "-" +:+ pad2 dd +:+ "T" +:+
  pad2 (sod / 3600) +:+ ":" +:+ pad2 (sod mod 3600 / 60) +:+ ":" +:+
  pad2 (sod mod 60) +:+ "Z".

(** The same instant shown on the UTC wall clock. *)
Definition in_utc (d : DateTime) : DateTime :=
  mkDateTime (wall d - utcoffset d * MICROS) 0.

(** ** What the class takes from outside

    The clock and the server are oracles indexed by the number of earlier
    calls; the other fields are methods inherited from the SDK's
    [RESTStream] and functions of Python and of the libraries the module
    imports. *)
Class Host := {
  (** the [k]-th reading of [datetime.datetime.utcnow()]: a naive
      datetime, given by the microseconds from 1970-01-01T00:00:00 on its
      wall clock *)
  utcnow : nat -> Z;
  (** [d.timestamp()] of a naive datetime [d], in microseconds: Python
      reads the wall clock of [d] as local time of the process, so the
      result follows the local zone and its changes of offset *)
  timestamp : Z -> Z;
  (** the answer to the [k]-th call of [requests.post] *)
  requests_post : nat -> Request -> Response;
  (** [RESTStream.validate_response]: [Some msg] when it raises, [msg] being
      the text of the exception *)
  validate_response : Response -> option string;
  (** [int(s)] on a [str]; [None] for [ValueError] *)
  int_of_str : string -> option Z;
  (** [str(v)] on a list or a dictionary *)
  str_of_container : pyval -> string;
  (** [pendulum.parse]; [None] when it raises *)
  parse : string -> option DateTime;
  (** [Stream.get_starting_timestamp(context)]: the bookmark *)
  get_starting_timestamp : option (gmap string pyval) -> option DateTime;
  (** [extract_jsonpath(path, document)], as a list *)
  extract_jsonpath : string -> pyval -> list pyval;
}.

(** The per-stream data: [config] is [self.config], the stream's own copy of
    the configuration; the other fields are class attributes.  The class
    reads [base_url], [email], [password], [api_key], [user_agent] and
    [start_date] through [self.config] and writes none of them, so nothing
    depends on whether the copy shares storage with the tap's dictionary. *)
Record Stream := mkStream {
  config : gmap string pyval;
  replication_key : option string;
  records_jsonpath : string;
  additional_params : gmap string pyval;
}.

(** ** Strings *)

Fixpoint str_mem (a : ascii) (chars : string) : bool :=
  match chars with
  | EmptyString => false
  | String c chars' => Ascii.eqb a c || str_mem a chars'
  end.

Definition str_empty (s : string) : bool :=
  match s with EmptyString => true | _ => false end.

(** [s.rstrip(chars)]: [s] without its longest suffix made of [chars]. *)
Fixpoint rstrip (chars : string) (s : string) : string :=
  match s with
  | EmptyString => EmptyString
  | String a s' =>
      let r := rstrip chars s' in
      if str_mem a chars && str_empty r then EmptyString else String a r
  end.

(** [s.endswith(suffix)] *)
Fixpoint endswith (s suffix : string) : bool :=
  String.eqb s suffix ||
  match s with
  | EmptyString => false
  | String _ s' => endswith s' suffix
  end.

Section Client.
Context `{Host}.

(** [int(v)] *)
Definition py_int (v : pyval) : outcome Z :=
  match v with
  | PInt z => Ok z
  | PBool b => Ok (if b then 1 else 0)
  | PStr s => match int_of_str s with Some z => Ok z | None => Raise ValueError end
  | _ => Raise TypeError
  end.

(** [str(v)], what an f-string puts in place of [{v}] *)
Definition py_str (v : pyval) : string :=
  match v with
  | PNone => "None"
  | PBool b => if b then "True" else "False"
  | PInt z => pretty z
  | PStr s => s
  | _ => str_of_container v
  end.

(** [v[k]] for a string key *)
Definition subscript (v : pyval) (k : string) : outcome pyval :=
  match v with
  | PDict d =>
      match find (fun kv => String.eqb (fst kv) k) d with
      | Some kv => Ok (snd kv)
      | None => Raise (KeyError k)
      end
  | _ => Raise TypeError
  end.

(** ** Primitive effects *)

Definition tap_get (k : string) : M pyval :=
  fun w => (Ok (dict_get (tap_config w) k), w).

Definition tap_set (k : string) (v : pyval) : M unit :=
  fun w => (Ok tt, mkWorld (<[k := v]> (tap_config w)) (config_file w)
                           (files w) (ticks w) (posts w)).

(** [datetime.datetime.utcnow()] *)
Definition utcnow_read : M Z :=
  fun w => let t := utcnow (length (ticks w)) in
           (Ok t, mkWorld (tap_config w) (config_file w) (files w)
                          (t :: ticks w) (posts w)).

(** [requests.post(url, data, headers)].  The call is recorded and taken
    to produce a response: what the library itself may raise (a URL it
    refuses, a connection that fails) is outside the model. *)
Definition post (r : Request) : M Response :=
  fun w => (Ok (requests_post (length (posts w)) r),
            mkWorld (tap_config w) (config_file w) (files w)
                    (ticks w) (r :: posts w)).

(** [with open(self._tap.config_file, "w") as outfile:
       json.dump(self._tap._config, outfile, indent=4)]:
    the file is truncated and then holds the one document.  Opening and
    writing are taken to succeed. *)
Definition dump_config : M unit :=
  fun w => (Ok tt, mkWorld (tap_config w) (config_file w)
                           (<[config_file w := [tap_config w]]> (files w))
                           (ticks w) (posts w)).

(** ** The class *)

Definition base_url (s : Stream) : outcome string :=
  match config s !! "base_url" with
  | None => Ok ""
  | Some (PStr u) => Ok (rstrip "/" u)
  | Some _ => Raise AttributeError
  end.

Definition url_base (s : Stream) : outcome string :=
  match base_url s with
  | Ok b => Ok (if negb (endswith b "/admin") then b +:+ "/admin" else b)
  | Raise e => Raise e
  end.

Definition auth_url (s : Stream) : outcome string :=
  match base_url s with
  | Ok b => Ok (b +:+ "/auth/user/emailpass")
  | Raise e => Raise e
  end.

Definition is_token_valid : M bool :=
  let* access_token := tap_get "access_token" in
  let* t := utcnow_read in
  let now := round_timestamp (timestamp t) in
  let* expires_in := tap_get "expires_in" in
  let* expires_in :=
    match expires_in with
    | PNone => ret None
    | v => match py_int v with
           | Ok e => ret (Some e)
           | Raise e => raise e
           end
    end in
  if negb (truthy access_token) then ret false
  else match expires_in with
       | None => ret false
       | Some e =>
           if negb (truthy (PInt e)) then ret false
           else ret (negb (e - now <? TOKEN_EXPIRY_BUFFER_SECONDS))
       end.

Definition get_access_token (s : Stream) : M pyval :=
  let* current_token := tap_get "access_token" in
  let* valid := is_token_valid in
  if negb valid then
    let headers : gmap string string :=
      {[ "Content-Type" := "application/json" ]} in
    let login_data : gmap string pyval :=
      <[ "password" := dict_get (config s) "password" ]>
        {[ "email" := dict_get (config s) "email" ]} in
    let* url := lift (auth_url s) in
    let* auth_response := post (mkRequest url login_data headers) in
    match validate_response auth_response with
    | Some e => raise (Exception ("Failed during token generation: " +:+ e))
    | None =>
        let* body :=
          match resp_json auth_response with
          | Some j => ret j
          | None => raise JSONDecodeError
          end in
        let* new_token := lift (subscript body "token") in
        tap_set "access_token" new_token ;;
        let* t := utcnow_read in
        let expiry_timestamp :=
          round_timestamp
            (timestamp (t + TOKEN_VALIDITY_MINUTES * 60 * MICROS)) in
        tap_set "expires_in" (PInt expiry_timestamp) ;;
        dump_config ;;
        ret new_token
    end
  else ret current_token.

Definition http_headers (s : Stream) : M (gmap string pyval) :=
  let headers : gmap string pyval := ∅ in
  let headers :=
    match config s !! "user_agent" with
    | Some _ => <[ "User-Agent" := dict_get (config s) "user_agent" ]> headers
    | None => headers
    end in
  if truthy (dict_get (config s) "api_key") then
    ret (<[ "x-medusa-access-token" := dict_get (config s) "api_key" ]> headers)
  else
    let* token := get_access_token s in
    ret (<[ "Authorization" := PStr ("Bearer " +:+ py_str token) ]> headers).

Definition get_next_page_token (s : Stream) (response : Response)
    (previous_token : option Z) : outcome (option Z) :=
  let previous_token :=
    match previous_token with
    | Some t => if truthy (PInt t) then t else 0
    | None => 0
    end in
  match resp_json response with
  | None => Raise JSONDecodeError
  | Some res_json =>
      let records_len :=
        Z.of_nat (length (extract_jsonpath (records_jsonpath s) res_json)) in
      if truthy (PInt records_len)
      then Ok (Some (previous_token + records_len))
      else Ok None
  end.

(** The value returned is a [datetime] or a false object (an absent, null
    or empty [start_date] with no bookmark); the latter is [None] here. *)
Definition get_starting_time (s : Stream)
    (context : option (gmap string pyval)) : outcome (option DateTime) :=
  let start_date := dict_get (config s) "start_date" in
  let start_date :=
    if truthy start_date then
      match start_date with
      | PStr x => match parse x with
                  | Some d => Ok (Some d)
                  | None => Raise ParserError
                  end
      | _ => Raise TypeError
      end
    else Ok None in
  match start_date with
  | Raise e => Raise e
  | Ok start_date =>
      let rep_key := get_starting_timestamp context in
      Ok (match rep_key with Some d => Some d | None => start_date end)
  end.

Definition get_url_params (s : Stream)
    (context : option (gmap string pyval)) (next_page_token : option Z)
    : outcome (gmap string pyval) :=
  let params : gmap string pyval := ∅ in
  let params :=
    if decide (additional_params s = ∅) then params
    else additional_params s ∪ params in
  let params :=
    match next_page_token with
    | Some t => if truthy (PInt t) then <[ "offset" := PInt t ]> params
                else params
    | None => params
    end in
  match get_starting_time s context with
  | Raise e => Raise e
  | Ok start_date =>
      match start_date, replication_key s with
      | Some d, Some rk =>
          if truthy (PStr rk) then
            match add_seconds d 1 with
            | Raise e => Raise e
            | Ok d' => Ok (<[ rk +:+ "[gt]" := PStr (strftime d') ]> params)
            end
          else Ok params
      | _, _ => Ok params
      end
  end.

Definition response_error_message (response : Response) : string :=
  let error_type :=
    if (400 <=? status_code response) && (status_code response <? 500)
    then "Client" else "Server" in
  pretty (status_code response) +:+ " " +:+ error_type +:+ " Error: " +:+
  reason response +:+ " for url: " +:+ resp_url response +:+ " Response: " +:+
  text response.

End Client.

(** ** Notions the properties speak about *)

(** A stream whose configured root URL is [u]. *)
Definition with_base_url (u : string) (s : Stream) : Stream :=
  mkStream (<[ "base_url" := PStr u ]> (config s)) (replication_key s)
           (records_jsonpath s) (additional_params s).

(** A token is cached when the tap's dictionary holds a true object under
    [access_token]: a missing key, a null and an empty string all count as
    no token, which is how the class itself tests it. *)
Definition token_cached (w : World) : bool :=
  truthy (dict_get (tap_config w) "access_token").

(** The recorded expiry, in seconds; a missing key, a null and a zero all
    count as no expiry. *)
Definition expiry_recorded (w : World) : option Z :=
  match dict_get (tap_config w) "expires_in" with
  | PInt e => if truthy (PInt e) then Some e else None
  | _ => None
  end.

(** The expiry entry is a timestamp or is absent. *)
Definition expiry_is_timestamp (w : World) : Prop :=
  match tap_config w !! "expires_in" with
  | None | Some PNone | Some (PInt _) => True
  | Some _ => False
  end.

(** The world after one more look at the clock. *)
Definition tick `{Host} (w : World) : World :=
  mkWorld (tap_config w) (config_file w) (files w)
          (utcnow (length (ticks w)) :: ticks w) (posts w).

(** What [now] is in a call of [is_token_valid] that starts in [w]. *)
Definition now_at `{Host} (w : World) : Z :=
  round_timestamp (timestamp (utcnow (length (ticks w)))).

(** The request a login exchange sends to [url]. *)
Definition login_request (s : Stream) (url : string) : Request :=
  mkRequest url
    (<[ "password" := dict_get (config s) "password" ]>
       {[ "email" := dict_get (config s) "email" ]})
    {[ "Content-Type" := "application/json" ]}.

(** The server's answer to a login exchange started in [w]. *)
Definition login_response `{Host} (s : Stream) (url : string) (w : World)
    : Response :=
  requests_post (length (posts w)) (login_request s url).

(** The world once [r] has been sent. *)
Definition posted (r : Request) (w : World) : World :=
  mkWorld (tap_config w) (config_file w) (files w) (ticks w) (r :: posts w).

(** The time of issuance of a refreshing call that starts in [w], in whole
    seconds: the call's second look at the clock, taken when the answer to
    the login exchange has arrived, as [is_token_valid] would read it. *)
Definition issued_at `{Host} (w : World) : Z :=
  round_timestamp (timestamp (utcnow (S (length (ticks w))))).

(** The expiry such a call records: the timestamp of the wall clock sixty
    minutes after that reading. *)
Definition expiry_at `{Host} (w : World) : Z :=
  round_timestamp
    (timestamp (utcnow (S (length (ticks w))) +
                TOKEN_VALIDITY_MINUTES * 60 * MICROS)).

(** The dictionary after a refresh: both credential entries replaced. *)
Definition refreshed_config (tok : pyval) (expiry : Z)
    (cfg : gmap string pyval) : gmap string pyval :=
  <[ "expires_in" := PInt expiry ]> (<[ "access_token" := tok ]> cfg).

(** The world a successful refresh leaves: the dictionary updated, the
    configuration file holding exactly the updated dictionary. *)
Definition refreshed_world `{Host} (tok : pyval) (r : Request) (w : World)
    : World :=
  let cfg := refreshed_config tok (expiry_at w) (tap_config w) in
  mkWorld cfg (config_file w) (<[ config_file w := [cfg] ]> (files w))
          (utcnow (S (length (ticks w))) :: utcnow (length (ticks w)) :: ticks w)
          (r :: posts w).

(** The credential states a run can reach, each with the time of its latest
    issuance.  A run starts with no expiry recorded; a call of
    [get_access_token] that leaves the dictionary as it was keeps the
    issuance time, a call that finds the token invalid and returns a new one
    is an issuance. *)
Inductive reachable `{Host} (s : Stream) : World -> option Z -> Prop :=
| reach_start w :
    tap_config w !! "expires_in" = None ->
    reachable s w None
| reach_keep w i :
    reachable s w i ->
    tap_config (snd (get_access_token s w)) = tap_config w ->
    reachable s (snd (get_access_token s w)) i
| reach_issue w i tok :
    reachable s w i ->
    fst (is_token_valid w) = Ok false ->
    fst (get_access_token s w) = Ok tok ->
    reachable s (snd (get_access_token s w)) (Some (issued_at w)).

(** ** A sample host and sample worlds, for the examples *)

(** Modelled from the spec: [RESTStream.validate_response] is the SDK's and
    not part of this repository; the spec has every answer outside 2xx fail.
    The text of the failure is the class's own [response_error_message]. *)
Definition sample_validate_response (r : Response) : option string :=
  if (200 <=? status_code r) && (status_code r <? 300) then None
  else Some (response_error_message r).

(** Plain decimal numerals, the only strings the examples convert. *)
Fixpoint digits_value (s : string) (acc : Z) : option Z :=
  match s with
  | EmptyString => Some acc
  | String c s' =>
      let n := Z.of_nat (nat_of_ascii c) in
      if (48 <=? n) && (n <=? 57) then digits_value s' (10 * acc + (n - 48))
      else None
  end.

Definition sample_int_of_str (s : string) : option Z :=
  if str_empty s then None else digits_value s 0.

(** The two date strings the examples parse: midnight of 2024-01-01 in UTC
    and the same wall-clock time five hours east of UTC. *)
Definition sample_parse (x : string) : option DateTime :=
  if String.eqb x "2024-01-01T00:00:00Z"
  then Some (mkDateTime (1704067200 * MICROS) 0)
  else if String.eqb x "2024-01-01T00:00:00+05:00"
  then Some (mkDateTime (1704067200 * MICROS) 18000)
  else None.

(** The default path [$[*]] on a top-level array: its elements. *)
Definition sample_extract_jsonpath (path : string) (doc : pyval) : list pyval :=
  match doc with
  | PList l => l
  | _ => []
  end.

(** A host that runs in UTC (the timestamp of a naive datetime is its own
    wall clock), whose clock starts at 1700000000.25 and advances one second
    per reading, whose server gives [answer] to every request, and whose
    replication state holds [bookmark]. *)
Definition sample_host (answer : Response) (bookmark : option DateTime)
    : Host :=
  {| utcnow := fun k => 1700000000250000 + Z.of_nat k * MICROS;
     timestamp := fun d => d;
     requests_post := fun _ _ => answer;
     validate_response := sample_validate_response;
     int_of_str := sample_int_of_str;
     str_of_container := fun _ => "[...]";
     parse := sample_parse;
     get_starting_timestamp := fun _ => bookmark;
     extract_jsonpath := sample_extract_jsonpath |}.

(** The server's answers in the examples: a token, a refusal, and a 200
    whose body has no token. *)
Definition login_ok : Response :=
  mkResponse 200 "OK" "https://shop.example/auth/user/emailpass"
             "{token: tok_1}" (Some (PDict [("token", PStr "tok_1")])).

Definition login_denied : Response :=
  mkResponse 401 "Unauthorized" "https://shop.example/auth/user/emailpass"
             "{message: denied}" (Some (PDict [("message", PStr "denied")])).

Definition login_without_token : Response :=
  mkResponse 200 "OK" "https://shop.example/auth/user/emailpass"
             "{}" (Some (PDict [])).

Definition sample_stream : Stream :=
  mkStream
    (<[ "base_url" := PStr "https://shop.example/" ]>
       (<[ "email" := PStr "admin@shop.example" ]>
          {[ "password" := PStr "secret" ]}))
    (Some "updated_at") "$[*]" ∅.

(** A world with nothing cached. *)
Definition fresh_world : World := mkWorld ∅ "config.json" ∅ [] [].

(** A world whose cached token expires 3000 seconds after the sample
    clock's first reading. *)
Definition cached_world : World :=
  mkWorld (<[ "access_token" := PStr "tok_0" ]>
             {[ "expires_in" := PInt 1700003000 ]})
          "config.json" ∅ [] [].

(** A stream with a static API key. *)
Definition api_key_stream : Stream :=
  mkStream
    (<[ "base_url" := PStr "https://shop.example/" ]>
       (<[ "api_key" := PStr "sk_1" ]>
          {[ "user_agent" := PStr "tap-medusa" ]}))
    (Some "updated_at") "$[*]" ∅.

(** A page of [n] records at the top level. *)
Definition page (n : nat) : Response :=
  mkResponse 200 "OK" "https://shop.example/admin/orders" "[...]"
             (Some (PList (repeat (PDict []) n))).

(** Streams whose [start_date] is midnight of 2024-01-01, once in UTC and
    once five hours east of it. *)
Definition utc_stream : Stream :=
  mkStream {[ "start_date" := PStr "2024-01-01T00:00:00Z" ]}
           (Some "updated_at") "$[*]" ∅.

Definition east_stream : Stream :=
  mkStream {[ "start_date" := PStr "2024-01-01T00:00:00+05:00" ]}
           (Some "updated_at") "$[*]" ∅.

(** The hosts of the examples. *)
Definition host_ok : Host := sample_host login_ok None.
Definition host_denied : Host := sample_host login_denied None.
Definition host_no_token : Host := sample_host login_without_token None.

(** ** Further notions and samples *)

(** The dictionary on disk is the dictionary in memory: the configuration
    file holds exactly one document, the tap's dictionary as it is now. *)
Definition in_sync (w : World) : Prop :=
  files w !! config_file w = Some [tap_config w].

(** [n] slashes. *)
Fixpoint slashes (n : nat) : string :=
  match n with
  | O => EmptyString
  | S n' => String "/" (slashes n')
  end.

(** A stream whose configuration has no [api_key] entry. *)
Definition without_api_key (s : Stream) : Stream :=
  mkStream (delete "api_key" (config s)) (replication_key s)
           (records_jsonpath s) (additional_params s).

(** The number of records [get_next_page_token] counts in a response; 0
    stands for a body that is no JSON document, which the run does not
    survive. *)
Definition record_count `{Host} (s : Stream) (response : Response) : Z :=
  match resp_json response with
  | Some j => Z.of_nat (length (extract_jsonpath (records_jsonpath s) j))
  | None => 0
  end.

(** The cursor after a run of pages: each response is handed to
    [get_next_page_token] with the cursor the previous one produced, and the
    run ends at the first page that yields none. *)
Fixpoint cursor_after `{Host} (s : Stream) (pages : list Response)
    (token : option Z) : outcome (option Z) :=
  match pages with
  | [] => Ok token
  | p :: ps =>
      match get_next_page_token s p token with
      | Raise e => Raise e
      | Ok None => Ok None
      | Ok (Some t) => cursor_after s ps (Some t)
      end
  end.

(** Worlds whose cached token has a recorded expiry given as a numeral, as
    a word, and in the past. *)
Definition numeral_world : World :=
  mkWorld (<[ "access_token" := PStr "tok_0" ]>
             {[ "expires_in" := PStr "1700003000" ]})
          "config.json" ∅ [] [].

Definition garbled_world : World :=
  mkWorld {[ "expires_in" := PStr "soon" ]} "config.json" ∅ [] [].

Definition stale_world : World :=
  mkWorld (<[ "access_token" := PStr "tok_0" ]>
             {[ "expires_in" := PInt 1700000119 ]})
          "config.json" ∅ [] [].

(** An answer that issues the empty string as token. *)
Definition login_empty_token : Response :=
  mkResponse 200 "OK" "https://shop.example/auth/user/emailpass"
             "{token: }" (Some (PDict [("token", PStr "")])).

Definition host_empty_token : Host := sample_host login_empty_token None.

(** A host whose replication state holds a bookmark, 2024-06-01T00:00:00.9
    in UTC. *)
Definition host_bookmark : Host :=
  sample_host login_ok (Some (mkDateTime (1717200000 * MICROS + 900000) 0)).

(** Streams with no root URL, with a null root URL, with a [start_date]
    that is no date, and with static parameters. *)
Definition no_base_url_stream : Stream :=
  mkStream (<[ "email" := PStr "admin@shop.example" ]>
              {[ "password" := PStr "secret" ]})
           (Some "updated_at") "$[*]" ∅.

Definition null_base_url_stream : Stream :=
  mkStream {[ "base_url" := PNone ]} (Some "updated_at") "$[*]" ∅.

Definition bad_start_stream : Stream :=
  mkStream {[ "start_date" := PStr "yesterday" ]}
           (Some "updated_at") "$[*]" ∅.

Definition static_stream : Stream :=
  mkStream {[ "start_date" := PStr "2024-01-01T00:00:00Z" ]}
           (Some "updated_at") "$[*]"
           (<[ "limit" := PInt 100 ]> {[ "offset" := PInt 7 ]}).

(** A stream whose [api_key] entry is there but empty. *)
Definition empty_api_key_stream : Stream :=
  mkStream
    (<[ "base_url" := PStr "https://shop.example/" ]>
       (<[ "api_key" := PStr "" ]>
          (<[ "email" := PStr "admin@shop.example" ]>
             {[ "password" := PStr "secret" ]})))
    (Some "updated_at") "$[*]" ∅.

(** The records a run of pages holds in all. *)
Definition records_total `{Host} (s : Stream) (pages : list Response) : Z :=
  foldr Z.add 0 (map (record_count s) pages).

(** A page that carries records. *)
Definition has_records `{Host} (s : Stream) (p : Response) : Prop :=
  is_Some (resp_json p) /\ 0 < record_count s p.

(** A stream with neither [start_date] nor static parameters. *)
Definition bare_stream : Stream :=
  mkStream ∅ (Some "updated_at") "$[*]" ∅.

(** A host whose process runs on New York time on 2024-03-10, the day the
    clocks there go from 02:00 to 03:00: a wall clock before 03:00 is read
    as standard time, five hours behind UTC, a later one as daylight time,
    four hours behind.  Its clock starts at 02:30:00 of that day. *)
Definition new_york_timestamp (d : Z) : Z :=
  if d <? 1710039600 * MICROS then d + 18000 * MICROS else d + 14400 * MICROS.

Definition host_dst : Host :=
  {| utcnow := fun k => 1710037800 * MICROS + Z.of_nat k * MICROS;
     timestamp := new_york_timestamp;
     requests_post := fun _ _ => login_ok;
     validate_response := sample_validate_response;
     int_of_str := sample_int_of_str;
     str_of_container := fun _ => "[...]";
     parse := sample_parse;
     get_starting_timestamp := fun _ => None;
     extract_jsonpath := sample_extract_jsonpath |}.

(** A world in use: a cached token with 119 seconds left at the sample
    clock's first reading, another entry in the dictionary, a configuration
    file with an earlier document and a second file. *)
Definition populated_world : World :=
  mkWorld (<[ "access_token" := PStr "tok_0" ]>
             (<[ "expires_in" := PInt 1700000119 ]>
                {[ "tenant" := PStr "shop" ]}))
          "config.json"
          (<[ "config.json" := [ {[ "access_token" := PStr "tok_0" ]} ] ]>
             {[ "state.json" := [ ∅ ] ]})
          [] [].

(** * Properties *)

(** ** The base URL *)

Lemma rstrip_idempotent chars s :
  rstrip chars (rstrip chars s) = rstrip chars s.
Proof.
  induction s as [|a s IH]; simpl; [reflexivity|].
  destruct (str_mem a chars && str_empty (rstrip chars s)) eqn:E; simpl.
  - reflexivity.
  - rewrite IH, E. reflexivity.
Qed.

Lemma str_empty_app x y : y <> "" -> str_empty (x +:+ y) = false.
Proof.
  intros Hy. destruct x; simpl; [|reflexivity].
  destruct y; simpl; congruence.
Qed.

Lemma rstrip_app_fixed chars x y :
  y <> "" -> rstrip chars y = y -> rstrip chars (x +:+ y) = x +:+ y.
Proof.
  intros Hy Hfix. induction x as [|a x IH]; simpl; [exact Hfix|].
  rewrite IH, (str_empty_app x y Hy), andb_false_r. reflexivity.
Qed.

Lemma endswith_app x y : endswith (x +:+ y) y = true.
Proof.
  induction x as [|a x IH]; simpl.
  - destruct y; simpl; [reflexivity|].
    rewrite Ascii.eqb_refl, String.eqb_refl. reflexivity.
  - rewrite IH. apply orb_true_r.
Qed.

Section Validity.
Context `{Host}.

Lemma url_base_with_base_url u s :
  url_base (with_base_url u s) =
  Ok (if negb (endswith (rstrip "/" u) "/admin")
      then rstrip "/" u +:+ "/admin" else rstrip "/" u).
Proof.
  unfold url_base, base_url, with_base_url; simpl.
  rewrite lookup_insert_eq. reflexivity.
Qed.

(** C8.  Normalising the root URL (trailing slashes stripped, [/admin]
    appended unless already the suffix) is idempotent: for every configured
    root URL [u] the base URL [v] is computed, and configuring [v] as the
    root URL gives [v] again. *)
Theorem url_base_idempotent (s : Stream) (u : string) :
  exists v, url_base (with_base_url u s) = Ok v /\
            url_base (with_base_url v s) = Ok v.
Proof.
  rewrite url_base_with_base_url.
  destruct (endswith (rstrip "/" u) "/admin") eqn:E; simpl.
  - exists (rstrip "/" u). split; [reflexivity|].
    rewrite url_base_with_base_url, rstrip_idempotent, E. reflexivity.
  - exists (rstrip "/" u +:+ "/admin"). split; [reflexivity|].
    rewrite url_base_with_base_url.
    rewrite (rstrip_app_fixed "/" (rstrip "/" u) "/admin");
      [|discriminate|reflexivity].
    rewrite endswith_app. reflexivity.
Qed.

(** ** Token validity *)

Lemma is_token_valid_world w : snd (is_token_valid w) = tick w.
Proof.
  unfold is_token_valid, bind, tap_get, utcnow_read, ret, raise, tick; simpl.
  repeat (case_match; simpl in *; simplify_eq); reflexivity.
Qed.

Lemma is_token_valid_value w :
  expiry_is_timestamp w ->
  fst (is_token_valid w) =
  Ok (token_cached w &&
      match expiry_recorded w with
      | Some e => TOKEN_EXPIRY_BUFFER_SECONDS <=? e - now_at w
      | None => false
      end).
Proof.
  unfold expiry_is_timestamp, expiry_recorded, token_cached, now_at, dict_get.
  unfold is_token_valid, bind, tap_get, utcnow_read, ret, raise, dict_get; simpl.
  destruct (tap_config w !! "expires_in") as [[|b|z|x|l|d]|]; simpl;
    try contradiction; intros _.
  - destruct (truthy _); reflexivity.
  - destruct (truthy (default PNone (tap_config w !! "access_token"))); simpl;
      [|reflexivity].
    destruct (z =? 0); simpl; [reflexivity|].
    f_equal. rewrite Z.leb_antisym. reflexivity.
  - destruct (truthy _); reflexivity.
Qed.

(** C1.  In every credential state (the expiry entry a timestamp or absent)
    [is_token_valid] returns false when no token is cached, when no expiry
    is recorded, and when the recorded expiry minus the current time is
    below 120 seconds; in every other state, a token cached and the expiry
    at least 120 seconds ahead, it returns true. *)
Theorem is_token_valid_spec (w : World) :
  expiry_is_timestamp w ->
  (token_cached w = false -> fst (is_token_valid w) = Ok false) /\
  (expiry_recorded w = None -> fst (is_token_valid w) = Ok false) /\
  (forall e, expiry_recorded w = Some e -> e - now_at w < 120 ->
             fst (is_token_valid w) = Ok false) /\
  (forall e, token_cached w = true -> expiry_recorded w = Some e ->
             e - now_at w >= 120 -> fst (is_token_valid w) = Ok true).
Proof.
  intros Hty. rewrite (is_token_valid_value w Hty).
  unfold TOKEN_EXPIRY_BUFFER_SECONDS. repeat split.
  - intros ->. reflexivity.
  - intros ->. rewrite andb_false_r. reflexivity.
  - intros e -> Hlt. replace (120 <=? e - now_at w) with false by lia.
    rewrite andb_false_r. reflexivity.
  - intros e -> -> Hge. replace (120 <=? e - now_at w) with true by lia.
    reflexivity.
Qed.

(** A recorded expiry that [int] cannot convert makes the check raise, also
    when no token is cached: the conversion comes first. *)
Lemma is_token_valid_unparsable w x :
  tap_config w !! "expires_in" = Some (PStr x) ->
  int_of_str x = None ->
  fst (is_token_valid w) = Raise ValueError.
Proof.
  intros Hx Hint.
  unfold is_token_valid, bind, tap_get, utcnow_read, ret, raise, dict_get; simpl.
  rewrite Hx; simpl. rewrite Hint. reflexivity.
Qed.

End Validity.

Section Credentials.
Context `{Host}.

Lemma round_div_add n k d :
  0 < d -> Z.even k = true -> round_div (n + k * d) d = round_div n d + k.
Proof.
  intros Hd Hk. unfold round_div.
  rewrite Z.div_add, Z.mod_add by lia.
  rewrite Z.even_add, Hk.
  repeat case_match; simpl in *; try lia; destruct (Z.even (n / d)); simpl in *; congruence.
Qed.

(** Where the local zone keeps its offset over the hour that follows the
    issuance reading, the recorded expiry is the time of issuance plus
    sixty minutes. *)
Lemma expiry_fixed_offset w :
  timestamp (utcnow (S (length (ticks w))) +
             TOKEN_VALIDITY_MINUTES * 60 * MICROS) =
    timestamp (utcnow (S (length (ticks w)))) +
    TOKEN_VALIDITY_MINUTES * 60 * MICROS ->
  expiry_at w = issued_at w + 60 * 60.
Proof.
  unfold expiry_at, issued_at, round_timestamp. intros ->.
  replace (TOKEN_VALIDITY_MINUTES * 60 * MICROS)
    with ((60 * 60) * MICROS) by reflexivity.
  apply round_div_add; reflexivity.
Qed.

Lemma is_token_valid_run w : is_token_valid w = (fst (is_token_valid w), tick w).
Proof. rewrite <- is_token_valid_world. apply surjective_pairing. Qed.

Lemma get_access_token_valid s w :
  fst (is_token_valid w) = Ok true ->
  get_access_token s w = (Ok (dict_get (tap_config w) "access_token"), tick w).
Proof.
  intros Hv. unfold get_access_token, bind at 1 2, tap_get.
  rewrite is_token_valid_run, Hv. reflexivity.
Qed.

Lemma get_access_token_raise s w e :
  fst (is_token_valid w) = Raise e ->
  get_access_token s w = (Raise e, tick w).
Proof.
  intros Hv. unfold get_access_token, bind at 1 2, tap_get.
  rewrite is_token_valid_run, Hv. reflexivity.
Qed.

Lemma get_access_token_invalid s w :
  fst (is_token_valid w) = Ok false ->
  get_access_token s w =
  match auth_url s with
  | Raise e => (Raise e, tick w)
  | Ok url =>
      let r := login_request s url in
      let resp := login_response s url w in
      match validate_response resp with
      | Some e =>
          (Raise (Exception ("Failed during token generation: " +:+ e)),
           posted r (tick w))
      | None =>
          match resp_json resp with
          | None => (Raise JSONDecodeError, posted r (tick w))
          | Some j =>
              match subscript j "token" with
              | Raise e => (Raise e, posted r (tick w))
              | Ok tok => (Ok tok, refreshed_world tok r w)
              end
          end
      end
  end.
Proof.
  intros Hv. unfold get_access_token, bind at 1 2, tap_get.
  rewrite is_token_valid_run, Hv. simpl negb. cbv iota.
  unfold bind at 1, lift. destruct (auth_url s) as [url|e]; [|reflexivity].
  unfold bind at 1, post. simpl.
  unfold login_response, login_request. simpl.
  destruct (validate_response _) as [e|]; [reflexivity|].
  unfold bind at 1. destruct (resp_json _) as [j|]; [|reflexivity].
  unfold ret at 1. unfold bind at 1, lift.
  destruct (subscript j "token") as [tok|e]; [|reflexivity].
  unfold bind, tap_set, utcnow_read, dump_config, ret, refreshed_world,
    refreshed_config, expiry_at, posted, tick. simpl.
  reflexivity.
Qed.

End Credentials.

Section Refresh.
Context `{Host}.

Lemma get_access_token_cases s w :
  tap_config (snd (get_access_token s w)) = tap_config w \/
  (fst (is_token_valid w) = Ok false /\
   exists tok, fst (get_access_token s w) = Ok tok).
Proof.
  destruct (fst (is_token_valid w)) as [[|]|e] eqn:Hv.
  - left. rewrite (get_access_token_valid s w Hv). reflexivity.
  - rewrite (get_access_token_invalid s w Hv).
    destruct (auth_url s) as [url|e]; [|left; reflexivity]. simpl.
    destruct (validate_response _); [left; reflexivity|].
    destruct (resp_json _) as [j|]; [|left; reflexivity].
    destruct (subscript j "token") as [tok|e]; [|left; reflexivity].
    right. split; [reflexivity|]. exists tok. reflexivity.
  - left. rewrite (get_access_token_raise s w e Hv). reflexivity.
Qed.

(** Every call of [get_access_token] leads from a reachable state to a
    reachable state. *)
Lemma reachable_step s w i :
  reachable s w i -> exists i', reachable s (snd (get_access_token s w)) i'.
Proof.
  intros Hr. destruct (get_access_token_cases s w) as [Hk|[Hv [tok Ht]]].
  - exists i. apply reach_keep; assumption.
  - exists (Some (issued_at w)). apply (reach_issue s w i tok); assumption.
Qed.

(** In a reachable state a recorded expiry is an integer. *)
Lemma reachable_expiry s w i :
  reachable s w i ->
  forall v, tap_config w !! "expires_in" = Some v -> exists e, v = PInt e.
Proof.
  induction 1 as [w Hnone|w i Hr IH Hk|w i tok Hr IH Hv Ht]; intros v Hl.
  - congruence.
  - rewrite Hk in Hl. apply IH. exact Hl.
  - rewrite (get_access_token_invalid s w Hv) in Ht, Hl.
    destruct (auth_url s) as [url|e]; [|discriminate]. simpl in Ht, Hl.
    destruct (validate_response _); [discriminate|].
    destruct (resp_json _) as [j|]; [|discriminate].
    destruct (subscript j "token") as [tok'|e]; [|discriminate].
    simpl in Hl. unfold refreshed_config in Hl.
    rewrite lookup_insert_eq in Hl. injection Hl as <-. eexists. reflexivity.
Qed.

(** What a successful refresh leaves: the new token returned, both
    credential entries replaced, the configuration file holding exactly
    the whole updated dictionary. *)
Lemma get_access_token_refresh_post s w url j tok :
  fst (is_token_valid w) = Ok false ->
  auth_url s = Ok url ->
  validate_response (login_response s url w) = None ->
  resp_json (login_response s url w) = Some j ->
  subscript j "token" = Ok tok ->
  let w' := snd (get_access_token s w) in
  let cfg := <[ "expires_in" := PInt (expiry_at w) ]>
               (<[ "access_token" := tok ]> (tap_config w)) in
  fst (get_access_token s w) = Ok tok /\
  tap_config w' = cfg /\
  config_file w' = config_file w /\
  files w' = <[ config_file w := [cfg] ]> (files w).
Proof.
  intros Hv Hu Hval Hj Htok.
  rewrite (get_access_token_invalid s w Hv), Hu. simpl.
  rewrite Hval, Hj, Htok. simpl. repeat split.
Qed.

(** C3, as the code has it.  When the cached token is not valid,
    [get_access_token] sends one login request, to the authentication
    endpoint and carrying the configured email and password; if response
    validation rejects the answer it raises an exception whose text wraps
    the detail of the rejection; and it returns a token exactly when
    validation passes and the body of the answer is a JSON object with a
    [token] entry, that entry being the token returned. *)
Theorem get_access_token_login (s : Stream) (w : World) (b : string) :
  fst (is_token_valid w) = Ok false ->
  base_url s = Ok b ->
  let url := b +:+ "/auth/user/emailpass" in
  let resp := login_response s url w in
  let r := get_access_token s w in
  (exists q, posts (snd r) = q :: posts w /\
             req_url q = url /\
             req_data q !! "email" = Some (dict_get (config s) "email") /\
             req_data q !! "password" = Some (dict_get (config s) "password")) /\
  (forall e, validate_response resp = Some e ->
             fst r = Raise (Exception ("Failed during token generation: " +:+ e))) /\
  (forall tok, fst r = Ok tok <->
               validate_response resp = None /\
               exists j, resp_json resp = Some j /\ subscript j "token" = Ok tok).
Proof.
  intros Hv Hb url resp r. subst r.
  rewrite (get_access_token_invalid s w Hv).
  unfold auth_url. rewrite Hb. fold url. cbv zeta. fold resp.
  split; [|split].
  - exists (login_request s url). split; [|split; [reflexivity|split]].
    + destruct (validate_response resp); [reflexivity|].
      destruct (resp_json resp) as [j|]; [|reflexivity].
      destruct (subscript j "token"); reflexivity.
    + unfold login_request; simpl.
      rewrite lookup_insert_ne by discriminate. apply lookup_singleton_eq.
    + unfold login_request; simpl. apply lookup_insert_eq.
  - intros e ->. reflexivity.
  - intros tok. destruct (validate_response resp) as [e|].
    + simpl. split; [discriminate|]. intros [? _]. discriminate.
    + destruct (resp_json resp) as [j|].
      * destruct (subscript j "token") as [tok'|e] eqn:Hs; simpl.
        -- split.
           ++ intros [= ->]. split; [reflexivity|]. exists j. split; [reflexivity|exact Hs].
           ++ intros [_ [j' [[= <-] Hs']]]. congruence.
        -- split; [discriminate|]. intros [_ [j' [[= <-] Hs']]]. congruence.
      * simpl. split; [discriminate|]. intros [_ [j' [Hj _]]]. discriminate.
Qed.

(** C10.  If response validation rejects the answer to the login exchange,
    [get_access_token] raises and leaves the cached token, the recorded
    expiry and the configuration files as they were. *)
Theorem failed_login_keeps_state (s : Stream) (w : World) (url e : string) :
  fst (is_token_valid w) = Ok false ->
  auth_url s = Ok url ->
  validate_response (login_response s url w) = Some e ->
  let r := get_access_token s w in
  (exists x, fst r = Raise x) /\
  tap_config (snd r) = tap_config w /\
  dict_get (tap_config (snd r)) "access_token" =
    dict_get (tap_config w) "access_token" /\
  dict_get (tap_config (snd r)) "expires_in" =
    dict_get (tap_config w) "expires_in" /\
  files (snd r) = files w.
Proof.
  intros Hv Hu Hval r. subst r.
  rewrite (get_access_token_invalid s w Hv), Hu. simpl. rewrite Hval. simpl.
  repeat split. eexists. reflexivity.
Qed.

(** However a call of [get_access_token] fails, the dictionary and the
    files are as they were before the call. *)
Lemma raise_keeps_state s w e :
  fst (get_access_token s w) = Raise e ->
  tap_config (snd (get_access_token s w)) = tap_config w /\
  files (snd (get_access_token s w)) = files w.
Proof.
  destruct (fst (is_token_valid w)) as [[|]|x] eqn:Hv.
  - rewrite (get_access_token_valid s w Hv). discriminate.
  - rewrite (get_access_token_invalid s w Hv).
    destruct (auth_url s) as [url|x]; [|split; reflexivity]. simpl.
    destruct (validate_response _); [split; reflexivity|].
    destruct (resp_json _) as [j|]; [|split; reflexivity].
    destruct (subscript j "token") as [tok|x]; [discriminate|split; reflexivity].
  - rewrite (get_access_token_raise s w x Hv). split; reflexivity.
Qed.

End Refresh.

Section Cached.
Context `{Host}.



End Cached.

Section Fetcher.
Context `{Host}.

(** C9.  With a true [api_key] configured, [http_headers] returns at once,
    the world untouched, so no clock is read and nothing is sent, and the
    headers carry the key under [x-medusa-access-token] and no
    [Authorization].  Otherwise it calls [get_access_token]: a failure is
    passed on, and a token [tok] comes back as [Authorization: Bearer tok]
    with no [x-medusa-access-token].  Either way [User-Agent] is there
    exactly when [user_agent] is a key of the configuration. *)
Theorem http_headers_spec (s : Stream) (w : World) :
  let api_key := dict_get (config s) "api_key" in
  (truthy api_key = true ->
   exists h, http_headers s w = (Ok h, w) /\
             (is_Some (h !! "User-Agent") <-> is_Some (config s !! "user_agent")) /\
             h !! "x-medusa-access-token" = Some api_key /\
             h !! "Authorization" = None) /\
  (truthy api_key = false ->
   (forall e, fst (get_access_token s w) = Raise e ->
              http_headers s w = (Raise e, snd (get_access_token s w))) /\
   (forall tok, fst (get_access_token s w) = Ok tok ->
      exists h, http_headers s w = (Ok h, snd (get_access_token s w)) /\
                (is_Some (h !! "User-Agent") <-> is_Some (config s !! "user_agent")) /\
                h !! "Authorization" = Some (PStr ("Bearer " +:+ py_str tok)) /\
                h !! "x-medusa-access-token" = None)).
Proof.
  assert (Hua : forall k v, k <> "User-Agent" ->
            (is_Some ((<[ k := v ]>
               (match config s !! "user_agent" with
                | Some _ => <[ "User-Agent" := dict_get (config s) "user_agent" ]> ∅
                | None => (∅ : gmap string pyval)
                end)) !! "User-Agent") <-> is_Some (config s !! "user_agent"))).
  { intros k v Hk. rewrite lookup_insert_ne by exact Hk.
    destruct (config s !! "user_agent") as [u|].
    - rewrite lookup_insert_eq. split; eauto.
    - rewrite lookup_empty. split; intros [? ?]; discriminate. }
  assert (Hno : forall k,
            k <> "User-Agent" ->
            (match config s !! "user_agent" with
             | Some _ => <[ "User-Agent" := dict_get (config s) "user_agent" ]> ∅
             | None => (∅ : gmap string pyval)
             end) !! k = None).
  { intros k Hk. destruct (config s !! "user_agent").
    - rewrite lookup_insert_ne by congruence. apply lookup_empty.
    - apply lookup_empty. }
  intros api_key. subst api_key. unfold http_headers. split.
  - intros ->. eexists. split; [reflexivity|]. split; [|split].
    + apply Hua. discriminate.
    + apply lookup_insert_eq.
    + rewrite lookup_insert_ne by discriminate. apply Hno. discriminate.
  - intros ->. split.
    + intros e He. unfold bind.
      destruct (get_access_token s w) as [r w']. simpl in He. subst r.
      reflexivity.
    + intros tok Ht. unfold bind.
      destruct (get_access_token s w) as [r w']. simpl in Ht. subst r.
      eexists. split; [reflexivity|]. split; [|split].
      * apply Hua. discriminate.
      * apply lookup_insert_eq.
      * rewrite lookup_insert_ne by discriminate. apply Hno. discriminate.
Qed.

(** C5.  [get_next_page_token] returns nothing when no record is found at
    the records path of the response, and otherwise the previous token, 0
    when absent, plus the number of records found; so no record after token
    57 gives nothing, and 25 records after token 50 give 75. *)
Theorem get_next_page_token_spec (s : Stream) (response : Response)
    (res_json : pyval) :
  resp_json response = Some res_json ->
  let n := Z.of_nat (length (extract_jsonpath (records_jsonpath s) res_json)) in
  (forall previous_token,
     get_next_page_token s response previous_token =
     Ok (if n =? 0 then None else Some (default 0 previous_token + n))) /\
  (n = 0 -> get_next_page_token s response (Some 57) = Ok None) /\
  (n = 25 -> get_next_page_token s response (Some 50) = Ok (Some 75)).
Proof.
  intros Hj n.
  assert (Hgen : forall previous_token,
     get_next_page_token s response previous_token =
     Ok (if n =? 0 then None else Some (default 0 previous_token + n))).
  { intros previous_token. unfold get_next_page_token. rewrite Hj. fold n.
    simpl. destruct (n =? 0); simpl; [reflexivity|].
    destruct previous_token as [t|]; simpl; [|reflexivity].
    destruct (t =? 0) eqn:E; simpl; [|reflexivity].
    apply Z.eqb_eq in E. subst t. reflexivity. }
  split; [exact Hgen|]. split; intros Hn; rewrite Hgen, Hn; reflexivity.
Qed.

Lemma gt_key_not_offset rk : rk +:+ "[gt]" <> "offset".
Proof.
  intros E. pose proof (endswith_app rk "[gt]") as He.
  rewrite E in He. discriminate He.
Qed.

(** The parameters before the date filter is added. *)
Lemma get_url_params_offset_only s next_page_token :
  (let params : gmap string pyval := ∅ in
   let params :=
     if decide (additional_params s = ∅) then params
     else additional_params s ∪ params in
   match next_page_token with
   | Some t => if truthy (PInt t) then <[ "offset" := PInt t ]> params
               else params
   | None => params
   end) !! "offset" =
  match next_page_token with
  | Some t => if t =? 0 then additional_params s !! "offset"
              else Some (PInt t)
  | None => additional_params s !! "offset"
  end.
Proof.
  cbv zeta.
  assert (Hbase : (if decide (additional_params s = ∅) then ∅
                   else additional_params s ∪ ∅) !! "offset" =
                  additional_params s !! "offset").
  { destruct (decide _) as [E|_]; [rewrite E; reflexivity|].
    rewrite lookup_union, lookup_empty.
    destruct (additional_params s !! "offset"); reflexivity. }
  destruct next_page_token as [t|]; [|exact Hbase]. simpl.
  destruct (t =? 0); simpl; [exact Hbase|]. apply lookup_insert_eq.
Qed.

(** C7, as the code has it.  In the mapping [get_url_params] returns,
    [offset] is the previous page token whenever that token is present and
    not zero; when the token is absent or zero the entry is the one the
    stream's static parameters define, if they define one.  With static
    parameters that define no [offset], as the class's empty default, the
    mapping has the key exactly when the token is present and not zero. *)
Theorem get_url_params_offset (s : Stream)
    (context : option (gmap string pyval)) (next_page_token : option Z)
    (params : gmap string pyval) :
  get_url_params s context next_page_token = Ok params ->
  params !! "offset" =
    match next_page_token with
    | Some t => if t =? 0 then additional_params s !! "offset"
                else Some (PInt t)
    | None => additional_params s !! "offset"
    end /\
  (additional_params s !! "offset" = None ->
   (is_Some (params !! "offset") <->
    exists t, next_page_token = Some t /\ t <> 0)).
Proof.
  intros Hp. pose proof (get_url_params_offset_only s next_page_token) as Ho.
  assert (Hl : params !! "offset" =
    match next_page_token with
    | Some t => if t =? 0 then additional_params s !! "offset"
                else Some (PInt t)
    | None => additional_params s !! "offset"
    end).
  { unfold get_url_params in Hp. cbv zeta in Hp, Ho.
    destruct (get_starting_time s context) as [[d|]|e]; [| |discriminate].
    - destruct (replication_key s) as [rk|].
      + destruct (truthy (PStr rk)).
        * destruct (add_seconds d 1) as [d'|e]; [|discriminate].
          injection Hp as <-.
          rewrite lookup_insert_ne by apply gt_key_not_offset. exact Ho.
        * injection Hp as <-. exact Ho.
      + injection Hp as <-. exact Ho.
    - injection Hp as <-. exact Ho. }
  split; [exact Hl|]. intros Hadd. rewrite Hl, Hadd.
  destruct next_page_token as [t|].
  - destruct (t =? 0) eqn:E.
    + apply Z.eqb_eq in E. split.
      * intros [? ?]. discriminate.
      * intros (t' & [= <-] & Hne). contradiction.
    + apply Z.eqb_neq in E. split; [|eauto]. intros _. exists t. auto.
  - split.
    + intros [? ?]. discriminate.
    + intros (t' & ? & _). discriminate.
Qed.

End Fetcher.

Section DateFilter.
Context `{Host}.

Lemma in_utc_zero_offset d : utcoffset d = 0 -> in_utc d = d.
Proof.
  destruct d as [w o]; simpl. intros ->. unfold in_utc; simpl.
  f_equal. lia.
Qed.

Lemma add_seconds_wall d n d' :
  add_seconds d n = Ok d' ->
  wall d' = wall d + n * MICROS /\ utcoffset d' = utcoffset d.
Proof.
  unfold add_seconds. destruct (_ && _); [|discriminate].
  intros [= <-]. split; reflexivity.
Qed.

(** For a time held in UTC the wall clock is the UTC clock, so what
    [strftime] renders is the UTC rendering of the instant. *)
Lemma strftime_utc d : utcoffset d = 0 -> strftime d = strftime (in_utc d).
Proof. intros Hz. rewrite (in_utc_zero_offset d Hz). reflexivity. Qed.

(** The bookmark of the replication context wins over [start_date]. *)
Lemma get_starting_time_bookmark s context b sd :
  get_starting_timestamp context = Some b ->
  get_starting_time s context = Ok sd ->
  sd = Some b.
Proof.
  intros Hb. unfold get_starting_time. rewrite Hb.
  destruct (truthy _); [|congruence].
  destruct (dict_get (config s) "start_date"); try discriminate.
  destruct (parse _); [congruence|discriminate].
Qed.

(** With a replication key and a resolved starting time [d], the parameter
    [<key>[gt]] is the rendering of [d] plus one second: the calendar fields
    of that time on its own wall clock, followed by Z. *)
Lemma get_url_params_date_filter s context next_page_token rk d d' :
  replication_key s = Some rk ->
  rk <> "" ->
  get_starting_time s context = Ok (Some d) ->
  add_seconds d 1 = Ok d' ->
  exists params,
    get_url_params s context next_page_token = Ok params /\
    params !! (rk +:+ "[gt]") = Some (PStr (strftime d')) /\
    wall d' = wall d + 1 * MICROS.
Proof.
  intros Hrk Hne Hst Hadd. unfold get_url_params.
  rewrite Hst, Hrk, Hadd. simpl.
  destruct (String.eqb rk "") eqn:E; [apply String.eqb_eq in E; contradiction|].
  simpl. eexists. split; [reflexivity|]. split; [apply lookup_insert_eq|].
  apply (add_seconds_wall d 1 d' Hadd).
Qed.

(** With no starting time resolved, no date filter is added. *)
Lemma get_url_params_no_start s context next_page_token rk params :
  get_starting_time s context = Ok None ->
  additional_params s !! (rk +:+ "[gt]") = None ->
  get_url_params s context next_page_token = Ok params ->
  params !! (rk +:+ "[gt]") = None.
Proof.
  intros Hst Hadd. unfold get_url_params. rewrite Hst. intros [= <-].
  assert (Hbase : (if decide (additional_params s = ∅) then ∅
                   else additional_params s ∪ ∅) !! (rk +:+ "[gt]") =
                  (None : option pyval)).
  { destruct (decide _); [apply lookup_empty|].
    rewrite lookup_union, Hadd, lookup_empty. reflexivity. }
  destruct next_page_token as [t|]; [|exact Hbase].
  simpl. destruct (negb (t =? 0)); [|exact Hbase].
  rewrite lookup_insert_ne; [exact Hbase|].
  intros E. symmetry in E. exact (gt_key_not_offset rk E).
Qed.

End DateFilter.

(** * Examples *)

(** The spec's own example: a starting time 2024-01-01T00:00:00Z and the
    key [updated_at]. *)
Example get_url_params_utc_example :
  get_url_params (H := host_ok) utc_stream None None =
  Ok {[ "updated_at[gt]" := PStr "2024-01-01T00:00:01Z" ]}.
Proof. vm_compute. reflexivity. Qed.

(** C6.  The date filter is the wall clock of the resolved starting time
    with the letter Z behind it, not that time's rendering in UTC: for a
    [start_date] of 2024-01-01T00:00:00+05:00, which is
    2023-12-31T19:00:00 in UTC, the class sends 2024-01-01T00:00:01Z where
    the UTC rendering of the instant one second later is
    2023-12-31T19:00:01Z. *)
Theorem get_url_params_east_of_utc :
  get_starting_time (H := host_ok) east_stream None =
    Ok (Some (mkDateTime (1704067200 * MICROS) 18000)) /\
  get_url_params (H := host_ok) east_stream None None =
    Ok {[ "updated_at[gt]" := PStr "2024-01-01T00:00:01Z" ]} /\
  strftime (in_utc (mkDateTime (1704067201 * MICROS) 18000)) =
    "2023-12-31T19:00:01Z".
Proof. vm_compute. repeat split. Qed.

(** The cached token of the sample world is valid at the sample clock's
    first reading, 3000 seconds before its expiry. *)
Lemma is_token_valid_spec_witness :
  expiry_is_timestamp cached_world /\
  token_cached cached_world = true /\
  expiry_recorded cached_world = Some 1700003000 /\
  1700003000 - now_at (H := host_ok) cached_world >= 120 /\
  fst (is_token_valid (H := host_ok) cached_world) = Ok true.
Proof.
  assert (Hty : expiry_is_timestamp cached_world) by (vm_compute; exact I).
  assert (Htok : token_cached cached_world = true) by reflexivity.
  assert (Hexp : expiry_recorded cached_world = Some 1700003000) by reflexivity.
  assert (Hge : 1700003000 - now_at (H := host_ok) cached_world >= 120)
    by (vm_compute; discriminate).
  refine (conj Hty (conj Htok (conj Hexp (conj Hge _)))).
  exact (proj2 (proj2 (proj2 (is_token_valid_spec (H := host_ok) cached_world Hty)))
               1700003000 Htok Hexp Hge).
Defined.

(** A refused login: one request is sent and the exception wraps the
    detail of the refusal. *)
Lemma get_access_token_login_witness :
  let url := "https://shop.example" +:+ "/auth/user/emailpass" in
  let r := get_access_token (H := host_denied) sample_stream fresh_world in
  (fst (is_token_valid (H := host_denied) fresh_world) = Ok false /\
   base_url sample_stream = Ok "https://shop.example") /\
  (exists q, posts (snd r) = q :: [] /\
             req_url q = url /\
             req_data q !! "email" = Some (PStr "admin@shop.example") /\
             req_data q !! "password" = Some (PStr "secret")) /\
  (forall e, validate_response (Host := host_denied)
               (login_response (H := host_denied) sample_stream url fresh_world) = Some e ->
             fst r = Raise (Exception ("Failed during token generation: " +:+ e))) /\
  (forall tok, fst r = Ok tok <->
               validate_response (Host := host_denied)
                 (login_response (H := host_denied) sample_stream url fresh_world) = None /\
               exists j, resp_json (login_response (H := host_denied) sample_stream url fresh_world) = Some j /\
                         subscript j "token" = Ok tok).
Proof.
  intros url r.
  assert (Hh : fst (is_token_valid (H := host_denied) fresh_world) = Ok false /\
               base_url sample_stream = Ok "https://shop.example")
    by (vm_compute; split; reflexivity).
  split; [exact Hh|]. destruct Hh as [H1 H2].
  exact (get_access_token_login (H := host_denied) sample_stream fresh_world
           "https://shop.example" H1 H2).
Defined.

(** C3 as stated fails: the server answers 200, validation passes, and yet
    no token is returned, because the body has none. *)
Lemma get_access_token_no_token_in_body :
  fst (is_token_valid (H := host_no_token) fresh_world) = Ok false /\
  status_code (login_response (H := host_no_token) sample_stream
                 "https://shop.example/auth/user/emailpass" fresh_world) = 200 /\
  validate_response (Host := host_no_token)
    (login_response (H := host_no_token) sample_stream
       "https://shop.example/auth/user/emailpass" fresh_world) = None /\
  fst (get_access_token (H := host_no_token) sample_stream fresh_world) =
    Raise (KeyError "token").
Proof. vm_compute. repeat split. Qed.

(** A refused login in a world in use: the expired token, its expiry, the
    other entry and both files are left as they were. *)
Lemma failed_login_keeps_state_witness :
  let url := "https://shop.example/auth/user/emailpass" in
  let e := "401 Client Error: Unauthorized for url: https://shop.example/auth/user/emailpass Response: {message: denied}" in
  let r := get_access_token (H := host_denied) sample_stream populated_world in
  (fst (is_token_valid (H := host_denied) populated_world) = Ok false /\
   auth_url sample_stream = Ok url /\
   validate_response (Host := host_denied)
     (login_response (H := host_denied) sample_stream url populated_world) =
     Some e) /\
  (dict_get (tap_config populated_world) "access_token" = PStr "tok_0" /\
   dict_get (tap_config populated_world) "expires_in" = PInt 1700000119 /\
   files populated_world !! "config.json" =
     Some [ {[ "access_token" := PStr "tok_0" ]} ] /\
   files populated_world !! "state.json" = Some [ ∅ ]) /\
  ((exists x, fst r = Raise x) /\
   tap_config (snd r) = tap_config populated_world /\
   dict_get (tap_config (snd r)) "access_token" =
     dict_get (tap_config populated_world) "access_token" /\
   dict_get (tap_config (snd r)) "expires_in" =
     dict_get (tap_config populated_world) "expires_in" /\
   files (snd r) = files populated_world).
Proof.
  intros url e r.
  assert (Hh : fst (is_token_valid (H := host_denied) populated_world) = Ok false /\
   auth_url sample_stream = Ok url /\
   validate_response (Host := host_denied)
     (login_response (H := host_denied) sample_stream url populated_world) =
     Some e)
    by (vm_compute; repeat split).
  split; [exact Hh|]. destruct Hh as (H1 & H2 & H3).
  split; [vm_compute; repeat split|].
  exact (failed_login_keeps_state (H := host_denied) sample_stream populated_world
           url e H1 H2 H3).
Defined.


(** A page of 25 records after token 50, and an empty page after 57. *)
Lemma get_next_page_token_spec_witness :
  (resp_json (page 25) = Some (PList (repeat (PDict []) 25)) /\
   resp_json (page 0) = Some (PList [])) /\
  get_next_page_token (H := host_ok) sample_stream (page 25) (Some 50) =
    Ok (Some 75) /\
  get_next_page_token (H := host_ok) sample_stream (page 0) (Some 57) = Ok None /\
  get_next_page_token (H := host_ok) sample_stream (page 25) None =
    Ok (Some 25).
Proof.
  assert (H25 : resp_json (page 25) = Some (PList (repeat (PDict []) 25)))
    by reflexivity.
  assert (H0 : resp_json (page 0) = Some (PList [])) by reflexivity.
  split; [exact (conj H25 H0)|].
  pose proof (get_next_page_token_spec (H := host_ok) sample_stream (page 25) _ H25)
    as (G25 & _ & P25).
  pose proof (get_next_page_token_spec (H := host_ok) sample_stream (page 0) _ H0)
    as (_ & P0 & _).
  split; [exact (P25 eq_refl)|]. split; [exact (P0 eq_refl)|].
  exact (G25 None).
Defined.

(** The second page of a stream: the offset is the token. *)
Lemma get_url_params_offset_witness :
  let params : gmap string pyval :=
    <[ "updated_at[gt]" := PStr "2024-01-01T00:00:01Z" ]>
      {[ "offset" := PInt 75 ]} in
  (get_url_params (H := host_ok) utc_stream None (Some 75) = Ok params /\
   additional_params utc_stream !! "offset" = None) /\
  params !! "offset" = Some (PInt 75) /\
  (is_Some (params !! "offset") <-> exists t, Some 75 = Some t /\ t <> 0).
Proof.
  intros params.
  assert (Hp : get_url_params (H := host_ok) utc_stream None (Some 75) = Ok params)
    by (vm_compute; reflexivity).
  assert (Hadd : additional_params utc_stream !! "offset" = None)
    by reflexivity.
  split; [exact (conj Hp Hadd)|].
  destruct (get_url_params_offset (H := host_ok) utc_stream None (Some 75) params
              Hp) as [P1 P2].
  exact (conj P1 (P2 Hadd)).
Defined.

(** C7 as stated fails: with a static [offset] among the stream's
    parameters the mapping holds an [offset] although the token is absent,
    and likewise when it is zero. *)
Lemma get_url_params_offset_without_token :
  additional_params static_stream !! "offset" = Some (PInt 7) /\
  get_url_params (H := host_ok) static_stream None None =
    Ok (<[ "updated_at[gt]" := PStr "2024-01-01T00:00:01Z" ]>
          (<[ "limit" := PInt 100 ]> {[ "offset" := PInt 7 ]})) /\
  get_url_params (H := host_ok) static_stream None (Some 0) =
    Ok (<[ "updated_at[gt]" := PStr "2024-01-01T00:00:01Z" ]>
          (<[ "limit" := PInt 100 ]> {[ "offset" := PInt 7 ]})) /\
  (<[ "updated_at[gt]" := PStr "2024-01-01T00:00:01Z" ]>
     (<[ "limit" := PInt 100 ]> ({[ "offset" := PInt 7 ]} : gmap string pyval)))
    !! "offset" = Some (PInt 7).
Proof. vm_compute. repeat split. Qed.

(** C2.  At a change of the local zone's offset the recorded expiry is not
    the time of issuance plus 60 minutes.  On New York time, with the clock
    at 02:30:01 on 2024-03-10 when the token is issued, the naive reading
    plus 60 minutes is 03:30:01, which as local time is the very instant
    the reading itself stands for: the expiry recorded equals the time of
    issuance, and the token just issued is not valid at the next check. *)
Theorem get_access_token_expiry_at_dst_change :
  let w1 := snd (get_access_token (H := host_dst) sample_stream fresh_world) in
  fst (is_token_valid (H := host_dst) fresh_world) = Ok false /\
  fst (get_access_token (H := host_dst) sample_stream fresh_world) =
    Ok (PStr "tok_1") /\
  issued_at (H := host_dst) fresh_world = 1710055801 /\
  tap_config w1 !! "expires_in" = Some (PInt 1710055801) /\
  fst (is_token_valid (H := host_dst) w1) = Ok false.
Proof. vm_compute. repeat split. Qed.

(** With an API key the world is left alone; without one the token of the
    login is sent as a bearer token. *)
Lemma http_headers_spec_witness :
  (truthy (dict_get (config api_key_stream) "api_key") = true /\
   truthy (dict_get (config sample_stream) "api_key") = false /\
   fst (get_access_token (H := host_ok) sample_stream fresh_world) =
     Ok (PStr "tok_1")) /\
  (exists h, http_headers (H := host_ok) api_key_stream fresh_world =
               (Ok h, fresh_world) /\
             (is_Some (h !! "User-Agent") <->
              is_Some (config api_key_stream !! "user_agent")) /\
             h !! "x-medusa-access-token" =
               Some (dict_get (config api_key_stream) "api_key") /\
             h !! "Authorization" = None) /\
  (exists h, http_headers (H := host_ok) sample_stream fresh_world =
               (Ok h, snd (get_access_token (H := host_ok) sample_stream fresh_world)) /\
             (is_Some (h !! "User-Agent") <->
              is_Some (config sample_stream !! "user_agent")) /\
             h !! "Authorization" =
               Some (PStr ("Bearer " +:+ py_str (H := host_ok) (PStr "tok_1"))) /\
             h !! "x-medusa-access-token" = None).
Proof.
  assert (Hh : truthy (dict_get (config api_key_stream) "api_key") = true /\
   truthy (dict_get (config sample_stream) "api_key") = false /\
   fst (get_access_token (H := host_ok) sample_stream fresh_world) =
     Ok (PStr "tok_1")) by (vm_compute; repeat split).
  split; [exact Hh|]. destruct Hh as (H1 & H2 & H3).
  split.
  - exact (proj1 (http_headers_spec (H := host_ok) api_key_stream fresh_world) H1).
  - exact (proj2 (proj2 (http_headers_spec (H := host_ok) sample_stream fresh_world) H2)
                 (PStr "tok_1") H3).
Defined.

(** * Further properties of the class *)

Section ValidityMore.
Context `{Host}.

(** What [is_token_valid] computes, in every world. *)
Lemma is_token_valid_char w :
  fst (is_token_valid w) =
  match dict_get (tap_config w) "expires_in" with
  | PNone => Ok false
  | v => match py_int v with
         | Ok e => Ok (token_cached w && negb (e =? 0) &&
                       (TOKEN_EXPIRY_BUFFER_SECONDS <=? e - now_at w))
         | Raise x => Raise x
         end
  end.
Proof.
  unfold is_token_valid, bind, tap_get, utcnow_read, ret, raise, token_cached,
    now_at; simpl.
  destruct (dict_get (tap_config w) "expires_in") as [|b|z|x|l|d]; simpl;
    try reflexivity.
  - destruct (truthy _); reflexivity.
  - destruct (truthy _); simpl; [|reflexivity].
    destruct b; simpl; rewrite ?Z.leb_antisym; reflexivity.
  - destruct (truthy _); simpl; [|reflexivity].
    destruct (z =? 0); simpl; rewrite ?Z.leb_antisym; reflexivity.
  - destruct (int_of_str x) as [e|]; simpl; [|reflexivity].
    destruct (truthy _); simpl; [|reflexivity].
    destruct (e =? 0); simpl; rewrite ?Z.leb_antisym; reflexivity.
Qed.

(** X1.  Whether it returns or raises, [is_token_valid] leaves the
    dictionary, the files and the requests sent as they were; its one
    effect is a single reading of the clock. *)
Theorem is_token_valid_frame (w : World) :
  let w' := snd (is_token_valid w) in
  tap_config w' = tap_config w /\
  files w' = files w /\
  config_file w' = config_file w /\
  posts w' = posts w /\
  ticks w' = utcnow (length (ticks w)) :: ticks w.
Proof.
  cbv zeta. rewrite is_token_valid_world. unfold tick; simpl.
  repeat split.
Qed.

(** X2.  A recorded expiry that is not an integer but that [int] converts
    (a numeral in a string, a boolean) counts as the integer it converts
    to. *)
Theorem is_token_valid_converted (w : World) (v : pyval) (e : Z) :
  tap_config w !! "expires_in" = Some v ->
  v <> PNone ->
  py_int v = Ok e ->
  fst (is_token_valid w) =
  Ok (token_cached w && negb (e =? 0) && (120 <=? e - now_at w)).
Proof.
  intros Hv Hne Hint. rewrite is_token_valid_char.
  unfold dict_get. rewrite Hv. simpl.
  destruct v; try contradiction; try discriminate Hint;
    change (py_int ?x) with (py_int x) in Hint |- *.
  - simpl in Hint. injection Hint as <-. reflexivity.
  - injection Hint as <-. reflexivity.
  - simpl in Hint |- *. destruct (int_of_str s); [|discriminate].
    injection Hint as <-. reflexivity.
Qed.


End ValidityMore.

Section CredentialsMore.
Context `{Host}.

(** The worlds a call of [get_access_token] can leave: the credentials and
    the files untouched, or the world of a successful refresh. *)
Lemma get_access_token_world s w :
  let w' := snd (get_access_token s w) in
  (tap_config w' = tap_config w /\ files w' = files w /\
   config_file w' = config_file w) \/
  (exists tok r, fst (get_access_token s w) = Ok tok /\
                 fst (is_token_valid w) = Ok false /\
                 w' = refreshed_world tok r w).
Proof.
  cbv zeta. destruct (fst (is_token_valid w)) as [[|]|e] eqn:Hv.
  - left. rewrite (get_access_token_valid s w Hv). repeat split.
  - rewrite (get_access_token_invalid s w Hv).
    destruct (auth_url s) as [url|e]; [|left; repeat split]. simpl.
    destruct (validate_response _); [left; repeat split|].
    destruct (resp_json _) as [j|]; [|left; repeat split].
    destruct (subscript j "token") as [tok|e]; [|left; repeat split].
    right. exists tok, (login_request s url). repeat split.
  - left. rewrite (get_access_token_raise s w e Hv). repeat split.
Qed.

(** The requests a call sends. *)
Lemma get_access_token_posts_eq s w :
  posts (snd (get_access_token s w)) =
  match fst (is_token_valid w), auth_url s with
  | Ok false, Ok url => login_request s url :: posts w
  | _, _ => posts w
  end.
Proof.
  destruct (fst (is_token_valid w)) as [[|]|e] eqn:Hv.
  - rewrite (get_access_token_valid s w Hv). reflexivity.
  - rewrite (get_access_token_invalid s w Hv).
    destruct (auth_url s) as [url|e]; [|reflexivity]. simpl.
    destruct (validate_response _); [reflexivity|].
    destruct (resp_json _) as [j|]; [|reflexivity].
    destruct (subscript j "token"); reflexivity.
  - rewrite (get_access_token_raise s w e Hv). reflexivity.
Qed.

(** X3.  A recorded expiry that [int] rejects makes [is_token_valid] raise
    that error whether or not a token is cached; [get_access_token] passes
    the error on without sending a request or touching the dictionary and
    the files, and so does [http_headers] when no API key is configured. *)
Theorem unconvertible_expiry_raises (s : Stream) (w : World) (v : pyval)
    (x : exn) :
  tap_config w !! "expires_in" = Some v ->
  v <> PNone ->
  py_int v = Raise x ->
  let w' := snd (get_access_token s w) in
  fst (is_token_valid w) = Raise x /\
  fst (get_access_token s w) = Raise x /\
  posts w' = posts w /\ tap_config w' = tap_config w /\ files w' = files w /\
  (truthy (dict_get (config s) "api_key") = false ->
   fst (http_headers s w) = Raise x).
Proof.
  intros Hv Hne Hint.
  assert (Hr : fst (is_token_valid w) = Raise x).
  { rewrite is_token_valid_char. unfold dict_get. rewrite Hv. simpl.
    destruct v; try contradiction; try discriminate Hint; simpl in Hint |- *.
    - destruct (int_of_str s0); [discriminate|]. congruence.
    - congruence.
    - congruence. }
  cbv zeta. rewrite (get_access_token_raise s w x Hr). simpl.
  repeat split; try assumption.
  intros Hkey. unfold http_headers. rewrite Hkey. unfold bind.
  rewrite (get_access_token_raise s w x Hr). reflexivity.
Qed.

(** X5.  A call of [get_access_token] sends a request exactly when
    [is_token_valid] returns false and the authentication URL can be built,
    and then exactly one: the login request, with the configured email and
    password (null when not configured) and a JSON content type. *)
Theorem get_access_token_requests (s : Stream) (w : World) :
  let w' := snd (get_access_token s w) in
  (posts w' = posts w \/
   exists url, auth_url s = Ok url /\ fst (is_token_valid w) = Ok false /\
               posts w' = login_request s url :: posts w) /\
  (forall url, fst (is_token_valid w) = Ok false -> auth_url s = Ok url ->
     exists q, posts w' = q :: posts w /\
               req_url q = url /\
               req_data q = <[ "password" := dict_get (config s) "password" ]>
                              {[ "email" := dict_get (config s) "email" ]} /\
               req_headers q = {[ "Content-Type" := "application/json" ]}) /\
  (fst (is_token_valid w) <> Ok false -> posts w' = posts w) /\
  (forall e, auth_url s = Raise e -> posts w' = posts w).
Proof.
  cbv zeta. rewrite get_access_token_posts_eq. repeat split.
  - destruct (fst (is_token_valid w)) as [[|]|e]; try (left; reflexivity).
    destruct (auth_url s) as [url|e]; [|left; reflexivity].
    right. exists url. repeat split.
  - intros url -> ->. exists (login_request s url). repeat split.
  - intros Hne. destruct (fst (is_token_valid w)) as [[|]|e];
      try reflexivity. contradiction.
  - intros e ->. destruct (fst (is_token_valid w)) as [[|]|x]; reflexivity.
Qed.

(** X7.  Whenever [get_access_token] returns, what it returns is the
    [access_token] entry of the dictionary as the call leaves it. *)
Theorem get_access_token_returns_entry (s : Stream) (w : World) (tok : pyval) :
  fst (get_access_token s w) = Ok tok ->
  dict_get (tap_config (snd (get_access_token s w))) "access_token" = tok.
Proof.
  destruct (fst (is_token_valid w)) as [[|]|e] eqn:Hv.
  - rewrite (get_access_token_valid s w Hv). simpl. congruence.
  - rewrite (get_access_token_invalid s w Hv).
    destruct (auth_url s) as [url|e]; [|discriminate]. simpl.
    destruct (validate_response _); [discriminate|].
    destruct (resp_json _) as [j|]; [|discriminate].
    destruct (subscript j "token") as [tok'|e]; [|discriminate].
    simpl. intros [= ->]. unfold dict_get, refreshed_config.
    rewrite lookup_insert_ne by discriminate.
    rewrite lookup_insert_eq. reflexivity.
  - rewrite (get_access_token_raise s w e Hv). discriminate.
Qed.


(** X6.  However a call of [get_access_token] fails (a bad expiry, a root
    URL that is no string, a rejected answer, a body that is no JSON
    object or has no token), the credentials, the other entries and the
    files are what they were before the call. *)
Theorem get_access_token_failure_atomic (s : Stream) (w : World) (e : exn) :
  fst (get_access_token s w) = Raise e ->
  let w' := snd (get_access_token s w) in
  tap_config w' = tap_config w /\ files w' = files w /\
  config_file w' = config_file w.
Proof.
  intros He. cbv zeta.
  destruct (get_access_token_world s w) as [Hk|(tok & r & Hok & _)].
  - exact Hk.
  - rewrite He in Hok. discriminate.
Qed.

End CredentialsMore.

Section Lifecycle.
Context `{Host}.

Lemma refresh_world_eq s w tok :
  fst (is_token_valid w) = Ok false ->
  fst (get_access_token s w) = Ok tok ->
  exists r, snd (get_access_token s w) = refreshed_world tok r w.
Proof.
  intros Hv. rewrite (get_access_token_invalid s w Hv).
  destruct (auth_url s) as [url|e]; [|discriminate]. simpl.
  destruct (validate_response _); [discriminate|].
  destruct (resp_json _) as [j|]; [|discriminate].
  destruct (subscript j "token") as [tok'|e]; [|discriminate].
  simpl. intros [= ->]. exists (login_request s url). reflexivity.
Qed.

Lemma refreshed_world_in_sync tok r w :
  in_sync (refreshed_world tok r w) /\
  is_Some (tap_config (refreshed_world tok r w) !! "access_token").
Proof.
  unfold in_sync, refreshed_world, refreshed_config; simpl. split.
  - apply lookup_insert_eq.
  - rewrite lookup_insert_ne by discriminate. rewrite lookup_insert_eq. eauto.
Qed.

(** X9.  In every reachable state that records an expiry, a token is
    recorded with it and the configuration file holds exactly the
    dictionary as it is in memory. *)
Theorem reachable_persisted (s : Stream) (w : World) (i : option Z) :
  reachable s w i ->
  is_Some (tap_config w !! "expires_in") ->
  in_sync w /\ is_Some (tap_config w !! "access_token").
Proof.
  induction 1 as [w Hnone|w i Hr IH Hk|w i tok Hr IH Hv Ht]; intros Hs.
  - rewrite Hnone in Hs. destruct Hs as [? ?]. discriminate.
  - destruct (get_access_token_world s w) as [(_ & Hf & Hc)|(tok & r & _ & _ & Hw)].
    + rewrite Hk in Hs. destruct (IH Hs) as [Hsync Htok].
      unfold in_sync in *. rewrite Hk, Hf, Hc. split; assumption.
    + rewrite Hw. apply refreshed_world_in_sync.
  - destruct (refresh_world_eq s w tok Hv Ht) as [r Hw]. rewrite Hw.
    apply refreshed_world_in_sync.
Qed.

(** X10.  In every reachable state [is_token_valid] returns a boolean: the
    expiry the class itself records is always one [int] accepts. *)
Theorem reachable_validity_returns (s : Stream) (w : World) (i : option Z) :
  reachable s w i ->
  exists b, fst (is_token_valid w) = Ok b.
Proof.
  intros Hr. rewrite is_token_valid_char. unfold dict_get.
  destruct (tap_config w !! "expires_in") as [v|] eqn:Hv; simpl.
  - destruct (reachable_expiry s w i Hr v Hv) as [e ->]. simpl.
    eexists. reflexivity.
  - exists false. reflexivity.
Qed.

(** X11.  With a token cached and a recorded expiry [e], a call reuses the
    cache (sends nothing) exactly when at least 120 seconds remain at the
    call's reading of the clock; from 119 seconds down it logs in again. *)
Theorem cached_token_reused_iff (s : Stream) (w : World) (e : Z)
    (url : string) :
  token_cached w = true ->
  tap_config w !! "expires_in" = Some (PInt e) ->
  e <> 0 ->
  auth_url s = Ok url ->
  (posts (snd (get_access_token s w)) = posts w <-> 120 <= e - now_at w) /\
  (posts (snd (get_access_token s w)) = login_request s url :: posts w <->
   e - now_at w < 120).
Proof.
  intros Htok He Hz Hu.
  assert (Hval : fst (is_token_valid w) = Ok (120 <=? e - now_at w)).
  { rewrite is_token_valid_char. unfold dict_get. rewrite He. simpl.
    rewrite Htok. replace (e =? 0) with false by lia. reflexivity. }
  assert (Hcons : forall (q : Request) l, q :: l <> l).
  { intros q l E. apply (f_equal (@length Request)) in E. simpl in E. lia. }
  rewrite get_access_token_posts_eq, Hval, Hu.
  destruct (120 <=? e - now_at w) eqn:E.
  - apply Z.leb_le in E. split; split; try (intros; lia); try reflexivity.
    intros E'. symmetry in E'. exfalso. exact (Hcons _ _ E').
  - apply Z.leb_gt in E. split; split; try (intros; lia); try reflexivity.
    intros E'. exfalso. exact (Hcons _ _ E').
Qed.

(** X12.  A token the server issues as a false object (the empty string, a
    null) is stored and returned like any other, but it is never valid: the
    call after it logs in again, however little time has passed. *)
Theorem false_token_never_valid (s : Stream) (w : World) (tok : pyval)
    (url : string) :
  fst (is_token_valid w) = Ok false ->
  fst (get_access_token s w) = Ok tok ->
  truthy tok = false ->
  auth_url s = Ok url ->
  let w1 := snd (get_access_token s w) in
  dict_get (tap_config w1) "access_token" = tok /\
  fst (is_token_valid w1) = Ok false /\
  posts (snd (get_access_token s w1)) = login_request s url :: posts w1.
Proof.
  intros Hv Ht Hf Hu. cbv zeta.
  destruct (refresh_world_eq s w tok Hv Ht) as [r Hw]. rewrite Hw.
  assert (Hacc : dict_get (tap_config (refreshed_world tok r w)) "access_token" = tok).
  { unfold dict_get, refreshed_world, refreshed_config; simpl.
    rewrite lookup_insert_ne by discriminate. rewrite lookup_insert_eq.
    reflexivity. }
  assert (Hinv : fst (is_token_valid (refreshed_world tok r w)) = Ok false).
  { rewrite is_token_valid_char. unfold token_cached. rewrite Hacc, Hf.
    unfold dict_get, refreshed_world, refreshed_config; simpl.
    rewrite lookup_insert_eq. reflexivity. }
  repeat split; [exact Hacc|exact Hinv|].
  rewrite get_access_token_posts_eq, Hinv, Hu. reflexivity.
Qed.

End Lifecycle.

(** ** Headers and URLs *)

Lemma rstrip_absorbs chars u t :
  rstrip chars t = "" -> rstrip chars (u +:+ t) = rstrip chars u.
Proof.
  intros Ht. induction u as [|a u IH]; simpl; [exact Ht|].
  rewrite IH. reflexivity.
Qed.

Lemma rstrip_slashes n : rstrip "/" (slashes n) = "".
Proof.
  induction n as [|n IH]; simpl; [reflexivity|]. rewrite IH. reflexivity.
Qed.

Section HeadersAndUrls.
Context `{Host}.

Lemma header_keys (h0 : gmap string pyval) (s : Stream) k0 v0 k :
  h0 = match config s !! "user_agent" with
       | Some _ => <[ "User-Agent" := dict_get (config s) "user_agent" ]> ∅
       | None => ∅
       end ->
  is_Some ((<[ k0 := v0 ]> h0) !! k) ->
  k = k0 \/ k = "User-Agent".
Proof.
  intros -> [v Hk]. destruct (decide (k0 = k)) as [->|Hne]; [left; reflexivity|].
  rewrite lookup_insert_ne in Hk by exact Hne.
  destruct (config s !! "user_agent").
  - destruct (decide ("User-Agent" = k)) as [<-|Hne']; [right; reflexivity|].
    rewrite lookup_insert_ne, lookup_empty in Hk by exact Hne'. discriminate.
  - rewrite lookup_empty in Hk. discriminate.
Qed.

(** X13.  Whatever [http_headers] returns has no header besides
    [User-Agent], [x-medusa-access-token] and [Authorization], and never
    both of the last two. *)
Theorem http_headers_keys (s : Stream) (w w' : World)
    (h : gmap string pyval) :
  http_headers s w = (Ok h, w') ->
  (forall k, is_Some (h !! k) ->
     k = "User-Agent" \/ k = "x-medusa-access-token" \/ k = "Authorization") /\
  ~ (is_Some (h !! "x-medusa-access-token") /\ is_Some (h !! "Authorization")).
Proof.
  unfold http_headers.
  destruct (truthy (dict_get (config s) "api_key")).
  - unfold ret. intros [= <- <-]. split.
    + intros k Hk. destruct (header_keys _ s _ _ k eq_refl Hk); auto.
    + intros [_ Ha]. destruct (header_keys _ s _ _ _ eq_refl Ha); discriminate.
  - unfold bind. destruct (get_access_token s w) as [[tok|e] w1];
      [|discriminate].
    unfold ret. intros [= <- <-]. split.
    + intros k Hk. destruct (header_keys _ s _ _ k eq_refl Hk); auto.
    + intros [Hx _]. destruct (header_keys _ s _ _ _ eq_refl Hx); discriminate.
Qed.

Lemma without_api_key_get s k :
  k <> "api_key" ->
  config (without_api_key s) !! k = config s !! k.
Proof. intros Hk. unfold without_api_key; simpl. apply lookup_delete_ne. congruence. Qed.

Lemma without_api_key_token s :
  get_access_token (without_api_key s) = get_access_token s.
Proof.
  unfold get_access_token, auth_url, base_url, dict_get.
  rewrite !without_api_key_get by discriminate. reflexivity.
Qed.

(** X14.  An [api_key] entry that is there but false (null, empty) is as
    good as none: [http_headers] does exactly what it does for the same
    configuration without the entry. *)
Theorem http_headers_false_api_key (s : Stream) (w : World) :
  truthy (dict_get (config s) "api_key") = false ->
  http_headers s w = http_headers (without_api_key s) w.
Proof.
  intros Hf. unfold http_headers. rewrite Hf.
  rewrite without_api_key_token.
  unfold dict_get.
  rewrite (without_api_key_get s "user_agent") by discriminate.
  replace (config (without_api_key s) !! "api_key") with (@None pyval)
    by (symmetry; apply lookup_delete_eq).
  reflexivity.
Qed.

(** X15.  Whatever string is configured as root URL, the base URL ends with
    [/admin], has no trailing slash, and is the stripped root URL with or
    without [/admin] appended. *)
Theorem url_base_shape (s : Stream) (u : string) :
  exists v, url_base (with_base_url u s) = Ok v /\
            endswith v "/admin" = true /\
            rstrip "/" v = v /\
            (v = rstrip "/" u \/ v = rstrip "/" u +:+ "/admin").
Proof.
  rewrite url_base_with_base_url.
  destruct (endswith (rstrip "/" u) "/admin") eqn:E; simpl.
  - exists (rstrip "/" u). repeat split; try assumption.
    + apply rstrip_idempotent.
    + left. reflexivity.
  - exists (rstrip "/" u +:+ "/admin"). repeat split.
    + apply endswith_app.
    + apply rstrip_app_fixed; [discriminate|reflexivity].
    + right. reflexivity.
Qed.

(** X16.  Any number of trailing slashes on the configured root URL makes
    no difference to the base URL and to the authentication URL. *)
Theorem trailing_slashes_ignored (s : Stream) (u : string) (n : nat) :
  url_base (with_base_url (u +:+ slashes n) s) = url_base (with_base_url u s) /\
  auth_url (with_base_url (u +:+ slashes n) s) = auth_url (with_base_url u s).
Proof.
  unfold url_base, auth_url, base_url, with_base_url; simpl.
  rewrite !lookup_insert_eq.
  rewrite (rstrip_absorbs "/" u (slashes n) (rstrip_slashes n)).
  split; reflexivity.
Qed.

(** X17.  With no [base_url] configured no URL fails to build: the root
    URL counts as empty, so the base URL is [/admin] and the authentication
    URL is [/auth/user/emailpass], both without scheme and host. *)
Theorem missing_base_url (s : Stream) :
  config s !! "base_url" = None ->
  base_url s = Ok "" /\
  url_base s = Ok "/admin" /\
  auth_url s = Ok "/auth/user/emailpass".
Proof.
  intros Hb. unfold url_base, auth_url, base_url. rewrite Hb.
  repeat split.
Qed.

(** X18.  A [base_url] that is no string (a null, a number) raises
    [AttributeError] wherever a URL is built; a refresh fails with it
    before anything is sent, while a valid cached token is still
    returned. *)
Theorem non_string_base_url (s : Stream) (w : World) (v : pyval) :
  config s !! "base_url" = Some v ->
  (forall u, v <> PStr u) ->
  url_base s = Raise AttributeError /\
  auth_url s = Raise AttributeError /\
  (fst (is_token_valid w) = Ok false ->
   fst (get_access_token s w) = Raise AttributeError /\
   posts (snd (get_access_token s w)) = posts w) /\
  (fst (is_token_valid w) = Ok true ->
   fst (get_access_token s w) = Ok (dict_get (tap_config w) "access_token")).
Proof.
  intros Hb Hns.
  assert (Hbase : base_url s = Raise AttributeError).
  { unfold base_url. rewrite Hb. destruct v; try reflexivity.
    exfalso. exact (Hns s0 eq_refl). }
  assert (Ha : auth_url s = Raise AttributeError) by
    (unfold auth_url; rewrite Hbase; reflexivity).
  split; [unfold url_base; rewrite Hbase; reflexivity|].
  split; [exact Ha|]. split.
  - intros Hv. rewrite (get_access_token_invalid s w Hv), Ha. split; reflexivity.
  - intros Hv. rewrite (get_access_token_valid s w Hv). reflexivity.
Qed.

End HeadersAndUrls.

(** ** Pagination and parameters *)

Section Paging.
Context `{Host}.

Lemma get_next_page_token_eq s p tok :
  is_Some (resp_json p) ->
  get_next_page_token s p tok =
  Ok (if record_count s p =? 0 then None
      else Some (default 0 tok + record_count s p)).
Proof.
  intros [j Hj]. unfold get_next_page_token, record_count. rewrite Hj. simpl.
  destruct (Z.of_nat _ =? 0); simpl; [reflexivity|].
  destruct tok as [t|]; simpl; [|reflexivity].
  destruct (t =? 0) eqn:E; simpl; [|reflexivity].
  apply Z.eqb_eq in E. subst t. reflexivity.
Qed.

Lemma cursor_after_total s pages tok :
  Forall (has_records s) pages ->
  pages <> [] ->
  cursor_after s pages tok = Ok (Some (default 0 tok + records_total s pages)).
Proof.
  intros Hall. revert tok.
  induction Hall as [|p ps [Hj Hn] Hps IH]; intros tok Hne; [contradiction|].
  simpl. rewrite (get_next_page_token_eq s p tok Hj).
  replace (record_count s p =? 0) with false by lia.
  unfold records_total; simpl. fold (records_total s ps).
  destruct ps as [|p' ps'].
  - simpl. unfold records_total; simpl. do 2 f_equal. lia.
  - rewrite IH by discriminate. simpl. do 2 f_equal. lia.
Qed.

(** X19.  Over a run of pages that all carry records, the cursor ends as
    the starting cursor (0 when absent) plus the number of records of all
    the pages; and the first page without records ends the run with no
    cursor, whatever pages would follow. *)
Theorem cursor_after_pages (s : Stream) (pages : list Response)
    (tok : option Z) :
  Forall (has_records s) pages ->
  (pages <> [] ->
   cursor_after s pages tok =
     Ok (Some (default 0 tok + records_total s pages))) /\
  (forall e rest,
     is_Some (resp_json e) -> record_count s e = 0 ->
     cursor_after s (pages ++ e :: rest) tok = Ok None).
Proof.
  intros Hall. split; [apply cursor_after_total; exact Hall|].
  intros e rest He Hz. revert tok.
  induction Hall as [|p ps [Hj Hn] Hps IH]; intros tok; simpl.
  - rewrite (get_next_page_token_eq s e tok He), Hz. reflexivity.
  - rewrite (get_next_page_token_eq s p tok Hj).
    replace (record_count s p =? 0) with false by lia. apply IH.
Qed.

Lemma static_params_lookup (s : Stream) k :
  (if decide (additional_params s = ∅) then (∅ : gmap string pyval)
   else additional_params s ∪ ∅) !! k = additional_params s !! k.
Proof.
  destruct (decide _) as [E|_].
  - rewrite E. reflexivity.
  - rewrite lookup_union, lookup_empty. destruct (additional_params s !! k); reflexivity.
Qed.

(** The mapping [get_url_params] returns, key by key. *)
Lemma get_url_params_lookup s context tok params k :
  get_url_params s context tok = Ok params ->
  params !! k = additional_params s !! k \/
  (k = "offset" /\ exists t, tok = Some t /\ t <> 0 /\
                             params !! k = Some (PInt t)) \/
  (exists rk, replication_key s = Some rk /\ k = rk +:+ "[gt]").
Proof.
  unfold get_url_params.
  set (base := if decide (additional_params s = ∅) then _ else _).
  assert (Hbase : base !! k = additional_params s !! k)
    by apply static_params_lookup.
  set (withoff := match tok with Some t => _ | None => _ end).
  assert (Hoff : withoff !! k = additional_params s !! k \/
                 (k = "offset" /\ exists t, tok = Some t /\ t <> 0 /\
                                            withoff !! k = Some (PInt t))).
  { subst withoff. destruct tok as [t|]; [|left; exact Hbase]. simpl.
    destruct (t =? 0) eqn:E; simpl; [left; exact Hbase|].
    apply Z.eqb_neq in E.
    destruct (decide ("offset" = k)) as [<-|Hne].
    - right. split; [reflexivity|]. exists t. rewrite lookup_insert_eq. auto.
    - left. rewrite lookup_insert_ne by exact Hne. exact Hbase. }
  clearbody withoff. clear Hbase. clearbody base.
  destruct (get_starting_time s context) as [[d|]|e]; [| |discriminate].
  - destruct (replication_key s) as [rk|].
    + destruct (truthy (PStr rk)).
      * destruct (add_seconds d 1) as [d'|e]; [|discriminate].
        intros [= <-].
        destruct (decide (rk +:+ "[gt]" = k)) as [<-|Hne].
        -- right. right. exists rk. auto.
        -- rewrite lookup_insert_ne by exact Hne.
           destruct Hoff as [Hl|(Hk & t & Ht & Hz & Hl)]; [left; exact Hl|].
           right. left. split; [exact Hk|]. exists t. auto.
      * intros [= <-].
        destruct Hoff as [Hl|(Hk & t & Ht & Hz & Hl)]; [left; exact Hl|].
        right. left. split; [exact Hk|]. exists t. auto.
    + intros [= <-].
      destruct Hoff as [Hl|(Hk & t & Ht & Hz & Hl)]; [left; exact Hl|].
      right. left. split; [exact Hk|]. exists t. auto.
  - intros [= <-].
    destruct Hoff as [Hl|(Hk & t & Ht & Hz & Hl)]; [left; exact Hl|].
    right. left. split; [exact Hk|]. exists t. auto.
Qed.

End Paging.

Section Params.
Context `{Host}.

Lemma offset_of_token s context t params :
  t <> 0 ->
  get_url_params s context (Some t) = Ok params ->
  params !! "offset" = Some (PInt t).
Proof.
  intros Hz. unfold get_url_params.
  change (truthy (PInt t)) with (negb (t =? 0)).
  replace (t =? 0) with false by lia. cbv zeta. cbn [negb].
  destruct (get_starting_time s context) as [[d|]|e]; [| |discriminate].
  - destruct (replication_key s) as [rk|].
    + destruct (truthy (PStr rk)).
      * destruct (add_seconds d 1) as [d'|e]; [|discriminate].
        intros [= <-]. rewrite lookup_insert_ne by apply gt_key_not_offset.
        apply lookup_insert_eq.
      * intros [= <-]. apply lookup_insert_eq.
    + intros [= <-]. apply lookup_insert_eq.
  - intros [= <-]. apply lookup_insert_eq.
Qed.

(** X20.  A cursor that [get_next_page_token] returns after a cursor that
    is absent or not negative is positive, and handed to [get_url_params]
    it is the [offset] of the next request, also over a static [offset]
    parameter of the stream. *)
Theorem next_token_becomes_offset (s : Stream) (response : Response)
    (previous_token : option Z) (t : Z)
    (context : option (gmap string pyval)) (params : gmap string pyval) :
  0 <= default 0 previous_token ->
  get_next_page_token s response previous_token = Ok (Some t) ->
  get_url_params s context (Some t) = Ok params ->
  0 < t /\ params !! "offset" = Some (PInt t).
Proof.
  intros Hprev Hnext Hparams.
  assert (Ht : 0 < t).
  { destruct (resp_json response) as [j|] eqn:Hj.
    - rewrite (get_next_page_token_eq s response previous_token) in Hnext
        by (rewrite Hj; eauto).
      unfold record_count in Hnext. rewrite Hj in Hnext.
      destruct (Z.of_nat _ =? 0) eqn:E; [discriminate|].
      apply Z.eqb_neq in E. injection Hnext as <-. lia.
    - unfold get_next_page_token in Hnext. rewrite Hj in Hnext. discriminate. }
  split; [exact Ht|].
  apply (offset_of_token s context t params); [lia|exact Hparams].
Qed.

(** X21.  The static parameters of the stream go into every request as
    they are, except under the two keys the method sets itself: a cursor
    that is present and not zero replaces a static [offset], while without
    such a cursor a static [offset] stays; the date filter takes the key of
    the replication key with [[gt]] appended. *)
Theorem get_url_params_static (s : Stream)
    (context : option (gmap string pyval)) (tok : option Z)
    (params : gmap string pyval) :
  get_url_params s context tok = Ok params ->
  (forall k, k <> "offset" ->
     (forall rk, replication_key s = Some rk -> k <> rk +:+ "[gt]") ->
     params !! k = additional_params s !! k) /\
  (tok = None \/ tok = Some 0 ->
   params !! "offset" = additional_params s !! "offset") /\
  (forall t, tok = Some t -> t <> 0 -> params !! "offset" = Some (PInt t)).
Proof.
  intros Hp. split; [|split].
  - intros k Hk Hrk.
    destruct (get_url_params_lookup s context tok params k Hp)
      as [Hl|[(Hk' & _)|(rk & Hr & Hk')]].
    + exact Hl.
    + contradiction.
    + exfalso. exact (Hrk rk Hr Hk').
  - intros Htok.
    destruct (get_url_params_lookup s context tok params "offset" Hp)
      as [Hl|[(_ & t & Ht & Hz & _)|(rk & _ & Hk')]].
    + exact Hl.
    + destruct Htok as [->| ->]; [discriminate|]. injection Ht as <-.
      contradiction.
    + exfalso. symmetry in Hk'. exact (gt_key_not_offset rk Hk').
  - intros t -> Hz. apply (offset_of_token s context t params Hz Hp).
Qed.

(** X22.  A [start_date] that is a string the date parser rejects makes
    [get_starting_time] and [get_url_params] fail, whatever the cursor and
    also when the replication context holds a bookmark: the configured date
    is parsed before the bookmark is looked at. *)
Theorem unparsable_start_date (s : Stream)
    (context : option (gmap string pyval)) (tok : option Z) (x : string) :
  config s !! "start_date" = Some (PStr x) ->
  x <> "" ->
  parse x = None ->
  get_starting_time s context = Raise ParserError /\
  get_url_params s context tok = Raise ParserError.
Proof.
  intros Hs Hx Hp.
  assert (Hg : get_starting_time s context = Raise ParserError).
  { unfold get_starting_time, dict_get. rewrite Hs. simpl.
    destruct (String.eqb x "") eqn:E; [apply String.eqb_eq in E; contradiction|].
    simpl. rewrite Hp. reflexivity. }
  split; [exact Hg|]. unfold get_url_params. rewrite Hg. reflexivity.
Qed.

Lemma strftime_seconds d1 d2 :
  wall d1 / MICROS = wall d2 / MICROS -> strftime d1 = strftime d2.
Proof. unfold strftime. intros ->. reflexivity. Qed.

(** X23.  The date filter has the resolution of a second: its value is the
    rendering of the whole second after the one the starting time falls in,
    the fraction of the starting time dropped; and for a starting time held
    in UTC it is the UTC rendering of the instant one second after it. *)
Theorem date_filter_value (s : Stream)
    (context : option (gmap string pyval)) (tok : option Z)
    (rk : string) (d d' : DateTime) :
  replication_key s = Some rk ->
  rk <> "" ->
  get_starting_time s context = Ok (Some d) ->
  add_seconds d 1 = Ok d' ->
  exists params,
    get_url_params s context tok = Ok params /\
    params !! (rk +:+ "[gt]") =
      Some (PStr (strftime (mkDateTime ((wall d / MICROS + 1) * MICROS)
                                       (utcoffset d)))) /\
    (utcoffset d = 0 ->
     params !! (rk +:+ "[gt]") = Some (PStr (strftime (in_utc d')))).
Proof.
  intros Hrk Hne Hst Hadd. unfold get_url_params.
  rewrite Hst, Hrk, Hadd. simpl.
  destruct (String.eqb rk "") eqn:E; [apply String.eqb_eq in E; contradiction|].
  simpl. eexists. split; [reflexivity|].
  rewrite lookup_insert_eq.
  destruct (add_seconds_wall d 1 d' Hadd) as [Hw Ho]. split.
  - do 2 f_equal. apply strftime_seconds. simpl. rewrite Hw.
    unfold MICROS. rewrite Z.div_add by lia. rewrite Z.div_mul by lia.
    reflexivity.
  - intros Hz. rewrite in_utc_zero_offset by congruence. reflexivity.
Qed.

End Params.

(** * Further examples *)

(** The state a first call leaves behind a fresh world is reachable. *)
Lemma refreshed_reachable :
  reachable (H := host_ok) sample_stream
    (snd (get_access_token (H := host_ok) sample_stream fresh_world))
    (Some (issued_at (H := host_ok) fresh_world)).
Proof.
  apply (reach_issue (H := host_ok) sample_stream fresh_world None (PStr "tok_1")).
  - apply reach_start. reflexivity.
  - vm_compute. reflexivity.
  - vm_compute. reflexivity.
Qed.

(** An expiry stored as the numeral 1700003000 is that timestamp. *)
Lemma is_token_valid_converted_witness :
  (tap_config numeral_world !! "expires_in" = Some (PStr "1700003000") /\
   PStr "1700003000" <> PNone /\
   py_int (H := host_ok) (PStr "1700003000") = Ok 1700003000) /\
  fst (is_token_valid (H := host_ok) numeral_world) =
  Ok (token_cached numeral_world && negb (1700003000 =? 0) &&
      (120 <=? 1700003000 - now_at (H := host_ok) numeral_world)).
Proof.
  assert (H1 : tap_config numeral_world !! "expires_in" = Some (PStr "1700003000"))
    by reflexivity.
  assert (H2 : PStr "1700003000" <> PNone) by discriminate.
  assert (H3 : py_int (H := host_ok) (PStr "1700003000") = Ok 1700003000)
    by (vm_compute; reflexivity).
  split; [exact (conj H1 (conj H2 H3))|].
  exact (is_token_valid_converted (H := host_ok) numeral_world _ _ H1 H2 H3).
Defined.

(** An expiry stored as a word makes every call fail with [ValueError]. *)
Lemma unconvertible_expiry_raises_witness :
  let w' := snd (get_access_token (H := host_ok) sample_stream garbled_world) in
  (tap_config garbled_world !! "expires_in" = Some (PStr "soon") /\
   PStr "soon" <> PNone /\
   py_int (H := host_ok) (PStr "soon") = Raise ValueError) /\
  (fst (is_token_valid (H := host_ok) garbled_world) = Raise ValueError /\
   fst (get_access_token (H := host_ok) sample_stream garbled_world) =
     Raise ValueError /\
   posts w' = posts garbled_world /\
   tap_config w' = tap_config garbled_world /\
   files w' = files garbled_world /\
   (truthy (dict_get (config sample_stream) "api_key") = false ->
    fst (http_headers (H := host_ok) sample_stream garbled_world) =
      Raise ValueError)).
Proof.
  intros w'.
  assert (H1 : tap_config garbled_world !! "expires_in" = Some (PStr "soon"))
    by reflexivity.
  assert (H2 : PStr "soon" <> PNone) by discriminate.
  assert (H3 : py_int (H := host_ok) (PStr "soon") = Raise ValueError)
    by (vm_compute; reflexivity).
  split; [exact (conj H1 (conj H2 H3))|].
  exact (unconvertible_expiry_raises (H := host_ok) sample_stream garbled_world
           _ _ H1 H2 H3).
Defined.


(** In a fresh world the one request of the call is the login. *)
Lemma get_access_token_requests_witness :
  (fst (is_token_valid (H := host_ok) fresh_world) = Ok false /\
   auth_url sample_stream = Ok "https://shop.example/auth/user/emailpass") /\
  exists q,
    posts (snd (get_access_token (H := host_ok) sample_stream fresh_world)) =
      q :: posts fresh_world /\
    req_url q = "https://shop.example/auth/user/emailpass" /\
    req_data q = <[ "password" := dict_get (config sample_stream) "password" ]>
                   {[ "email" := dict_get (config sample_stream) "email" ]} /\
    req_headers q = {[ "Content-Type" := "application/json" ]}.
Proof.
  assert (H1 : fst (is_token_valid (H := host_ok) fresh_world) = Ok false)
    by (vm_compute; reflexivity).
  assert (H2 : auth_url sample_stream =
               Ok "https://shop.example/auth/user/emailpass")
    by (vm_compute; reflexivity).
  split; [exact (conj H1 H2)|].
  exact (proj1 (proj2 (get_access_token_requests (H := host_ok) sample_stream
                         fresh_world)) _ H1 H2).
Defined.

(** A body without token: the call fails and nothing has changed. *)
Lemma get_access_token_failure_atomic_witness :
  let w' := snd (get_access_token (H := host_no_token) sample_stream stale_world) in
  fst (get_access_token (H := host_no_token) sample_stream stale_world) =
    Raise (KeyError "token") /\
  (tap_config w' = tap_config stale_world /\ files w' = files stale_world /\
   config_file w' = config_file stale_world).
Proof.
  intros w'.
  assert (H1 : fst (get_access_token (H := host_no_token) sample_stream stale_world) =
               Raise (KeyError "token")) by (vm_compute; reflexivity).
  split; [exact H1|].
  exact (get_access_token_failure_atomic (H := host_no_token) sample_stream
           stale_world _ H1).
Defined.

(** After the refresh the dictionary holds the token returned. *)
Lemma get_access_token_returns_entry_witness :
  fst (get_access_token (H := host_ok) sample_stream stale_world) =
    Ok (PStr "tok_1") /\
  dict_get (tap_config (snd (get_access_token (H := host_ok) sample_stream
                               stale_world))) "access_token" = PStr "tok_1".
Proof.
  assert (H1 : fst (get_access_token (H := host_ok) sample_stream stale_world) =
               Ok (PStr "tok_1")) by (vm_compute; reflexivity).
  split; [exact H1|].
  exact (get_access_token_returns_entry (H := host_ok) sample_stream stale_world
           _ H1).
Defined.


(** After the first refresh the file and the dictionary agree. *)
Lemma reachable_persisted_witness :
  let w' := snd (get_access_token (H := host_ok) sample_stream fresh_world) in
  (reachable (H := host_ok) sample_stream w'
     (Some (issued_at (H := host_ok) fresh_world)) /\
   is_Some (tap_config w' !! "expires_in")) /\
  (in_sync w' /\ is_Some (tap_config w' !! "access_token")).
Proof.
  intros w'.
  assert (H2 : is_Some (tap_config w' !! "expires_in")).
  { exists (PInt 1700003601). vm_compute. reflexivity. }
  split; [exact (conj refreshed_reachable H2)|].
  exact (reachable_persisted (H := host_ok) sample_stream w' _
           refreshed_reachable H2).
Defined.

(** In the state after the first refresh the check returns. *)
Lemma reachable_validity_returns_witness :
  let w' := snd (get_access_token (H := host_ok) sample_stream fresh_world) in
  reachable (H := host_ok) sample_stream w'
    (Some (issued_at (H := host_ok) fresh_world)) /\
  exists b, fst (is_token_valid (H := host_ok) w') = Ok b.
Proof.
  intros w'. split; [exact refreshed_reachable|].
  exact (reachable_validity_returns (H := host_ok) sample_stream w' _
           refreshed_reachable).
Defined.

(** With 119 seconds left the call logs in. *)
Lemma cached_token_reused_iff_witness :
  let url := "https://shop.example/auth/user/emailpass" in
  (token_cached stale_world = true /\
   tap_config stale_world !! "expires_in" = Some (PInt 1700000119) /\
   1700000119 <> 0 /\
   auth_url sample_stream = Ok url /\
   1700000119 - now_at (H := host_ok) stale_world < 120) /\
  posts (snd (get_access_token (H := host_ok) sample_stream stale_world)) =
    login_request sample_stream url :: posts stale_world.
Proof.
  intros url.
  assert (H1 : token_cached stale_world = true) by reflexivity.
  assert (H2 : tap_config stale_world !! "expires_in" = Some (PInt 1700000119))
    by reflexivity.
  assert (H3 : 1700000119 <> 0) by discriminate.
  assert (H4 : auth_url sample_stream = Ok url) by (vm_compute; reflexivity).
  assert (H5 : 1700000119 - now_at (H := host_ok) stale_world < 120)
    by (vm_compute; reflexivity).
  split; [exact (conj H1 (conj H2 (conj H3 (conj H4 H5))))|].
  exact (proj2 (proj2 (cached_token_reused_iff (H := host_ok) sample_stream
                         stale_world _ url H1 H2 H3 H4)) H5).
Defined.

(** The empty token is issued, stored, and refused by the next check. *)
Lemma false_token_never_valid_witness :
  let url := "https://shop.example/auth/user/emailpass" in
  let w1 := snd (get_access_token (H := host_empty_token) sample_stream fresh_world) in
  (fst (is_token_valid (H := host_empty_token) fresh_world) = Ok false /\
   fst (get_access_token (H := host_empty_token) sample_stream fresh_world) =
     Ok (PStr "") /\
   truthy (PStr "") = false /\
   auth_url sample_stream = Ok url) /\
  (dict_get (tap_config w1) "access_token" = PStr "" /\
   fst (is_token_valid (H := host_empty_token) w1) = Ok false /\
   posts (snd (get_access_token (H := host_empty_token) sample_stream w1)) =
     login_request sample_stream url :: posts w1).
Proof.
  intros url w1.
  assert (H1 : fst (is_token_valid (H := host_empty_token) fresh_world) = Ok false)
    by (vm_compute; reflexivity).
  assert (H2 : fst (get_access_token (H := host_empty_token) sample_stream
                      fresh_world) = Ok (PStr "")) by (vm_compute; reflexivity).
  assert (H3 : truthy (PStr "") = false) by reflexivity.
  assert (H4 : auth_url sample_stream = Ok url) by (vm_compute; reflexivity).
  split; [exact (conj H1 (conj H2 (conj H3 H4)))|].
  exact (false_token_never_valid (H := host_empty_token) sample_stream fresh_world
           _ url H1 H2 H3 H4).
Defined.

(** The headers of a login-based request: one entry, the bearer token. *)
Lemma http_headers_keys_witness :
  let h : gmap string pyval := {[ "Authorization" := PStr "Bearer tok_1" ]} in
  let w' := snd (get_access_token (H := host_ok) sample_stream fresh_world) in
  http_headers (H := host_ok) sample_stream fresh_world = (Ok h, w') /\
  ((forall k, is_Some (h !! k) ->
      k = "User-Agent" \/ k = "x-medusa-access-token" \/ k = "Authorization") /\
   ~ (is_Some (h !! "x-medusa-access-token") /\ is_Some (h !! "Authorization"))).
Proof.
  intros h w'.
  assert (H1 : http_headers (H := host_ok) sample_stream fresh_world = (Ok h, w'))
    by (vm_compute; reflexivity).
  split; [exact H1|].
  exact (http_headers_keys (H := host_ok) sample_stream fresh_world w' h H1).
Defined.

(** An empty API key: the headers are those of the login. *)
Lemma http_headers_false_api_key_witness :
  truthy (dict_get (config empty_api_key_stream) "api_key") = false /\
  http_headers (H := host_ok) empty_api_key_stream fresh_world =
  http_headers (H := host_ok) (without_api_key empty_api_key_stream) fresh_world.
Proof.
  assert (H1 : truthy (dict_get (config empty_api_key_stream) "api_key") = false)
    by reflexivity.
  split; [exact H1|].
  exact (http_headers_false_api_key (H := host_ok) empty_api_key_stream
           fresh_world H1).
Defined.

(** No root URL configured. *)
Lemma missing_base_url_witness :
  config no_base_url_stream !! "base_url" = None /\
  base_url no_base_url_stream = Ok "" /\
  url_base no_base_url_stream = Ok "/admin" /\
  auth_url no_base_url_stream = Ok "/auth/user/emailpass".
Proof.
  assert (H1 : config no_base_url_stream !! "base_url" = None) by reflexivity.
  split; [exact H1|].
  exact (missing_base_url no_base_url_stream H1).
Defined.

(** A null root URL. *)
Lemma non_string_base_url_witness :
  (config null_base_url_stream !! "base_url" = Some PNone /\
   (forall u, PNone <> PStr u) /\
   fst (is_token_valid (H := host_ok) fresh_world) = Ok false /\
   fst (is_token_valid (H := host_ok) cached_world) = Ok true) /\
  url_base null_base_url_stream = Raise AttributeError /\
  auth_url null_base_url_stream = Raise AttributeError /\
  (fst (get_access_token (H := host_ok) null_base_url_stream fresh_world) =
     Raise AttributeError /\
   posts (snd (get_access_token (H := host_ok) null_base_url_stream fresh_world)) =
     posts fresh_world) /\
  fst (get_access_token (H := host_ok) null_base_url_stream cached_world) =
    Ok (dict_get (tap_config cached_world) "access_token").
Proof.
  assert (H1 : config null_base_url_stream !! "base_url" = Some PNone)
    by reflexivity.
  assert (H2 : forall u, PNone <> PStr u) by (intros u; discriminate).
  assert (H3 : fst (is_token_valid (H := host_ok) fresh_world) = Ok false)
    by (vm_compute; reflexivity).
  assert (H4 : fst (is_token_valid (H := host_ok) cached_world) = Ok true)
    by (vm_compute; reflexivity).
  split; [exact (conj H1 (conj H2 (conj H3 H4)))|].
  destruct (non_string_base_url (H := host_ok) null_base_url_stream fresh_world
              PNone H1 H2) as (P1 & P2 & P3 & _).
  destruct (non_string_base_url (H := host_ok) null_base_url_stream cached_world
              PNone H1 H2) as (_ & _ & _ & P4).
  exact (conj P1 (conj P2 (conj (P3 H3) (P4 H4)))).
Defined.

Lemma page_has_records n :
  has_records (H := host_ok) sample_stream (page (S n)).
Proof.
  split; [eexists; reflexivity|].
  unfold record_count; simpl. rewrite repeat_length. lia.
Qed.

(** Three pages of 25, 25 and 7 records, then an empty one. *)
Lemma cursor_after_pages_witness :
  Forall (has_records (H := host_ok) sample_stream) [page 25; page 25; page 7] /\
  cursor_after (H := host_ok) sample_stream [page 25; page 25; page 7] None =
    Ok (Some 57) /\
  cursor_after (H := host_ok) sample_stream
    ([page 25; page 25; page 7] ++ page 0 :: [page 25]) None = Ok None.
Proof.
  assert (H1 : Forall (has_records (H := host_ok) sample_stream)
                 [page 25; page 25; page 7])
    by (repeat constructor; apply page_has_records).
  split; [exact H1|].
  destruct (cursor_after_pages (H := host_ok) sample_stream
              [page 25; page 25; page 7] None H1) as [P1 P2].
  split.
  - exact (P1 ltac:(discriminate)).
  - exact (P2 (page 0) [page 25] (ex_intro _ (PList []) eq_refl) eq_refl).
Defined.

(** The second page of a stream is asked for at offset 75. *)
Lemma next_token_becomes_offset_witness :
  let params : gmap string pyval :=
    <[ "updated_at[gt]" := PStr "2024-01-01T00:00:01Z" ]>
      {[ "offset" := PInt 75 ]} in
  (0 <= default 0 (Some 50) /\
   get_next_page_token (H := host_ok) utc_stream (page 25) (Some 50) =
     Ok (Some 75) /\
   get_url_params (H := host_ok) utc_stream None (Some 75) = Ok params) /\
  (0 < 75 /\ params !! "offset" = Some (PInt 75)).
Proof.
  intros params.
  assert (H1 : 0 <= default 0 (Some 50)) by (vm_compute; discriminate).
  assert (H2 : get_next_page_token (H := host_ok) utc_stream (page 25) (Some 50) =
               Ok (Some 75)) by (vm_compute; reflexivity).
  assert (H3 : get_url_params (H := host_ok) utc_stream None (Some 75) = Ok params)
    by (vm_compute; reflexivity).
  split; [exact (conj H1 (conj H2 H3))|].
  exact (next_token_becomes_offset (H := host_ok) utc_stream (page 25) (Some 50)
           75 None params H1 H2 H3).
Defined.

(** A stream with static [limit] and [offset]: on the first page both go
    out as they are. *)
Lemma get_url_params_static_witness :
  let params : gmap string pyval :=
    <[ "updated_at[gt]" := PStr "2024-01-01T00:00:01Z" ]>
      (<[ "limit" := PInt 100 ]> {[ "offset" := PInt 7 ]}) in
  get_url_params (H := host_ok) static_stream None None = Ok params /\
  params !! "limit" = additional_params static_stream !! "limit" /\
  params !! "offset" = additional_params static_stream !! "offset".
Proof.
  intros params.
  assert (H1 : get_url_params (H := host_ok) static_stream None None = Ok params)
    by (vm_compute; reflexivity).
  split; [exact H1|].
  destruct (get_url_params_static (H := host_ok) static_stream None None params H1)
    as (P1 & P2 & _).
  split.
  - apply P1; [discriminate|]. intros rk [= <-]. discriminate.
  - apply P2. left. reflexivity.
Defined.

(** A [start_date] that is no date, with a bookmark at hand. *)
Lemma unparsable_start_date_witness :
  (config bad_start_stream !! "start_date" = Some (PStr "yesterday") /\
   "yesterday" <> "" /\
   parse (Host := host_bookmark) "yesterday" = None /\
   is_Some (get_starting_timestamp (Host := host_bookmark) None)) /\
  get_starting_time (H := host_bookmark) bad_start_stream None =
    Raise ParserError /\
  get_url_params (H := host_bookmark) bad_start_stream None (Some 25) =
    Raise ParserError.
Proof.
  assert (H1 : config bad_start_stream !! "start_date" = Some (PStr "yesterday"))
    by reflexivity.
  assert (H2 : "yesterday" <> "") by discriminate.
  assert (H3 : parse (Host := host_bookmark) "yesterday" = None) by reflexivity.
  assert (H4 : is_Some (get_starting_timestamp (Host := host_bookmark) None))
    by (eexists; reflexivity).
  split; [exact (conj H1 (conj H2 (conj H3 H4)))|].
  exact (unparsable_start_date (H := host_bookmark) bad_start_stream None
           (Some 25) "yesterday" H1 H2 H3).
Defined.

(** A bookmark of 2024-06-01T00:00:00.9 gives the filter
    2024-06-01T00:00:01Z. *)
Lemma date_filter_value_witness :
  let d := mkDateTime (1717200000 * MICROS + 900000) 0 in
  let d' := mkDateTime (1717200001 * MICROS + 900000) 0 in
  (replication_key utc_stream = Some "updated_at" /\
   "updated_at" <> "" /\
   get_starting_time (H := host_bookmark) utc_stream None = Ok (Some d) /\
   add_seconds d 1 = Ok d' /\
   utcoffset d = 0) /\
  exists params,
    get_url_params (H := host_bookmark) utc_stream None None = Ok params /\
    params !! "updated_at[gt]" = Some (PStr "2024-06-01T00:00:01Z") /\
    params !! "updated_at[gt]" = Some (PStr (strftime (in_utc d'))).
Proof.
  intros d d'.
  assert (H1 : replication_key utc_stream = Some "updated_at") by reflexivity.
  assert (H2 : "updated_at" <> "") by discriminate.
  assert (H3 : get_starting_time (H := host_bookmark) utc_stream None = Ok (Some d))
    by (vm_compute; reflexivity).
  assert (H4 : add_seconds d 1 = Ok d') by (vm_compute; reflexivity).
  assert (H5 : utcoffset d = 0) by reflexivity.
  split; [exact (conj H1 (conj H2 (conj H3 (conj H4 H5))))|].
  destruct (date_filter_value (H := host_bookmark) utc_stream None None
              "updated_at" d d' H1 H2 H3 H4) as (params & P1 & P2 & P3).
  exists params. split; [exact P1|]. split; [|exact (P3 H5)].
  refine (eq_trans P2 _). vm_compute. reflexivity.
Defined.

(** X24 at work: the bookmark is taken although a [start_date] is
    configured. *)
Lemma get_starting_time_bookmark_witness :
  let b := mkDateTime (1717200000 * MICROS + 900000) 0 in
  (get_starting_timestamp (Host := host_bookmark) None = Some b /\
   get_starting_time (H := host_bookmark) utc_stream None = Ok (Some b)) /\
  Some b = Some b.
Proof.
  intros b.
  assert (H1 : get_starting_timestamp (Host := host_bookmark) None = Some b)
    by reflexivity.
  assert (H2 : get_starting_time (H := host_bookmark) utc_stream None = Ok (Some b))
    by (vm_compute; reflexivity).
  split; [exact (conj H1 H2)|].
  exact (get_starting_time_bookmark (H := host_bookmark) utc_stream None b
           (Some b) H1 H2).
Defined.

(** X25 at work: the [start_date] of the stream plus one second. *)
Lemma get_url_params_date_filter_witness :
  let d := mkDateTime (1704067200 * MICROS) 0 in
  let d' := mkDateTime (1704067201 * MICROS) 0 in
  (replication_key utc_stream = Some "updated_at" /\
   "updated_at" <> "" /\
   get_starting_time (H := host_ok) utc_stream None = Ok (Some d) /\
   add_seconds d 1 = Ok d') /\
  exists params,
    get_url_params (H := host_ok) utc_stream None None = Ok params /\
    params !! ("updated_at" +:+ "[gt]") = Some (PStr (strftime d')) /\
    wall d' = wall d + 1 * MICROS.
Proof.
  intros d d'.
  assert (H1 : replication_key utc_stream = Some "updated_at") by reflexivity.
  assert (H2 : "updated_at" <> "") by discriminate.
  assert (H3 : get_starting_time (H := host_ok) utc_stream None = Ok (Some d))
    by (vm_compute; reflexivity).
  assert (H4 : add_seconds d 1 = Ok d') by (vm_compute; reflexivity).
  split; [exact (conj H1 (conj H2 (conj H3 H4)))|].
  exact (get_url_params_date_filter (H := host_ok) utc_stream None None
           "updated_at" d d' H1 H2 H3 H4).
Defined.

(** X26 at work: neither bookmark nor [start_date], the mapping is
    empty. *)
Lemma get_url_params_no_start_witness :
  (get_starting_time (H := host_ok) bare_stream None = Ok None /\
   additional_params bare_stream !! ("updated_at" +:+ "[gt]") = None /\
   get_url_params (H := host_ok) bare_stream None None = Ok ∅) /\
  (∅ : gmap string pyval) !! ("updated_at" +:+ "[gt]") = None.
Proof.
  assert (H1 : get_starting_time (H := host_ok) bare_stream None = Ok None)
    by reflexivity.
  assert (H2 : additional_params bare_stream !! ("updated_at" +:+ "[gt]") = None)
    by reflexivity.
  assert (H3 : get_url_params (H := host_ok) bare_stream None None = Ok ∅)
    by (vm_compute; reflexivity).
  split; [exact (conj H1 (conj H2 H3))|].
  exact (get_url_params_no_start (H := host_ok) bare_stream None None
           "updated_at" ∅ H1 H2 H3).
Defined.
